(** * sql-chatbot: a shallow embedding of [app/db.py], [app/table.py] and
    [app/text_to_sql.py], with the properties of the table-summary cache,
    the database helpers, the context builder and the response parser.

    Python [str] values are modelled as [string], a character standing for a
    code point below 256, [None]-able
    values as [option], exceptions as an explicit [result] type, and the
    mutable parts of the program (the describer's attributes, the cache
    directory, the calls made to the database and to the language model) as a
    state threaded through a small state-and-exception monad. *)

From Stdlib Require Import ZArith String Ascii List Lia.
From stdpp Require Import gmap strings list fin_maps.

Open Scope string_scope.
Open Scope list_scope.

(** ** Exceptions and results *)

Inductive exn : Type :=
| ValueError (msg : string)
| AttributeError (msg : string)
| IndexError (msg : string)
| ValidationError (msg : string)
| ExternalError (msg : string)
| Unmodelled (what : string).

Inductive result (A : Type) : Type :=
| Ok (a : A)
| Raise (e : exn).

Arguments Ok {A} a.
Arguments Raise {A} e.

Definition rbind {A B : Type} (r : result A) (k : A -> result B) : result B :=
  match r with
  | Ok a => k a
  | Raise e => Raise e
  end.

(** ** Python string primitives *)

Module PyStr.

Definition newline : ascii := ascii_of_nat 10.
Definition space : ascii := ascii_of_nat 32.

(** [bool(s)] for a string: only the empty string is falsy. *)
Definition truthy (s : string) : bool :=
  match s with
  | EmptyString => false
  | String _ _ => true
  end.

Fixpoint find_from (sub s : string) (i : nat) : option nat :=
  if String.prefix sub s then Some i
  else match s with
       | EmptyString => None
       | String _ s' => find_from sub s' (S i)
       end.

(** [s.find(sub)]: the lowest index where [sub] occurs, or [-1]. *)
Definition find (s sub : string) : Z :=
  match find_from sub s 0 with
  | Some i => Z.of_nat i
  | None => (-1)%Z
  end.

Fixpoint drop (n : nat) (s : string) : string :=
  match n, s with
  | S n', String _ s' => drop n' s'
  | _, _ => s
  end.

Fixpoint take (n : nat) (s : string) : string :=
  match n, s with
  | S n', String c s' => String c (take n' s')
  | _, _ => EmptyString
  end.

(** A slice bound: negative bounds count from the end, and every bound is
    clamped to the string. *)
Definition bound (s : string) (i : Z) : nat :=
  let n := Z.of_nat (String.length s) in
  if (i <? 0)%Z then Z.to_nat (Z.max 0 (n + i)) else Z.to_nat (Z.min i n).

(** [s[i:]] *)
Definition slice_from (s : string) (i : Z) : string := drop (bound s i) s.

(** [s[:j]] *)
Definition slice_to (s : string) (j : Z) : string := take (bound s j) s.

(** [str.isspace] on the code points below 256: tab to carriage return, the
    four separators 28..31, the space, the next-line control U+0085 and the
    no-break space U+00A0. *)
Definition isspace (c : ascii) : bool :=
  let n := nat_of_ascii c in
  ((9 <=? n)%nat && (n <=? 13)%nat) || ((28 <=? n)%nat && (n <=? 32)%nat)
  || (n =? 133)%nat || (n =? 160)%nat.

Fixpoint lstrip_by (p : ascii -> bool) (s : string) : string :=
  match s with
  | EmptyString => EmptyString
  | String c s' => if p c then lstrip_by p s' else s
  end.

Fixpoint rstrip_by (p : ascii -> bool) (s : string) : string :=
  match s with
  | EmptyString => EmptyString
  | String c s' =>
      match rstrip_by p s' with
      | EmptyString => if p c then EmptyString else String c EmptyString
      | r => String c r
      end
  end.

Definition strip_by (p : ascii -> bool) (s : string) : string :=
  rstrip_by p (lstrip_by p s).

(** [s.strip()] *)
Definition strip (s : string) : string := strip_by isspace s.

Fixpoint mem_char (c : ascii) (chars : string) : bool :=
  match chars with
  | EmptyString => false
  | String d chars' => Ascii.eqb c d || mem_char c chars'
  end.

(** [s.strip(chars)]: [chars] is a set of characters, not a substring. *)
Definition strip_chars (s chars : string) : string :=
  strip_by (fun c => mem_char c chars) s.

(** [s.replace(old, new)] at single-character [old] and [new]. *)
Fixpoint replace_char (old new : ascii) (s : string) : string :=
  match s with
  | EmptyString => EmptyString
  | String c s' =>
      String (if Ascii.eqb c old then new else c) (replace_char old new s')
  end.

(** [sep.join(parts)] *)
Definition join (sep : string) (parts : list string) : string :=
  String.concat sep parts.

(** [sub in s] *)
Definition contains (s sub : string) : bool :=
  match find_from sub s 0 with
  | Some _ => true
  | None => false
  end.


End PyStr.

(** ** [app/text_to_sql.py]: [LlmResponseParser] *)

Record ChatMessage : Type := { content : string }.
Record ChatResponse : Type := { message : ChatMessage }.

Definition parse_response_to_sql (response : ChatResponse) : string :=
  let sql_query_prefix := "SQLQuery:" in
  let sql_result_prefix := "SQLResult:" in
  let response_content := content (message response) in
  let sql_query_start_index := PyStr.find response_content sql_query_prefix in
  let sql_result_start_index := PyStr.find response_content sql_result_prefix in
  let response_content :=
    if (sql_query_start_index =? -1)%Z then response_content
    else PyStr.slice_from response_content
           (sql_query_start_index + Z.of_nat (String.length sql_query_prefix)) in
  let response_content :=
    if (sql_result_start_index =? -1)%Z then response_content
    else PyStr.slice_to response_content sql_result_start_index in
  let cleaned_sql_query :=
    PyStr.replace_char PyStr.newline PyStr.space
      (PyStr.strip (PyStr.strip_chars (PyStr.strip response_content) "```")) in
  cleaned_sql_query.

Definition chat (s : string) : ChatResponse := {| message := {| content := s |} |}.

Definition nl : string := String PyStr.newline EmptyString.

(** ** [app/text_to_sql.py]: [TableContextCreator] *)

Record SQLTableSchema : Type := {
  schema_table_name : string;
  context_str : option string
}.

(** The framework's [SQLDatabase], seen through the one method the creator
    calls; the lookup of a table's column listing can fail. *)
Record SQLDatabase : Type := {
  get_single_table_info : string -> result string
}.

Record TableContextCreator : Type := { creator_db : SQLDatabase }.

(** [if table_context:] is false for [None] and for the empty string. *)
Definition create_full_context (table_info : string) (table_context : option string)
  : string :=
  match table_context with
  | Some ctx =>
      if PyStr.truthy ctx
      then table_info +:+ " The table description is: " +:+ ctx
      else table_info
  | None => table_info
  end.

Definition get_info (self : TableContextCreator) (table_name : string) : result string :=
  get_single_table_info (creator_db self) table_name.

(** The [for] loop of [get_contexts], appending to [descriptions]. *)
Fixpoint get_contexts_loop (self : TableContextCreator)
    (tables_schemas : list SQLTableSchema) (descriptions : list string)
  : result (list string) :=
  match tables_schemas with
  | [] => Ok descriptions
  | table :: rest =>
      rbind (get_info self (schema_table_name table)) (fun table_info =>
        let table_description := create_full_context table_info (context_str table) in
        get_contexts_loop self rest (descriptions ++ [table_description]))
  end.

Definition get_contexts (self : TableContextCreator)
    (tables_schemas : list SQLTableSchema) : result string :=
  rbind (get_contexts_loop self tables_schemas [])
        (fun descriptions => Ok (PyStr.join (nl +:+ nl) descriptions)).

(** ** [app/db.py]: [create_db_url] *)

Definition getenv (environ : gmap string string) (key default_ : string) : string :=
  default default_ (environ !! key).

(** [all(xs)] over strings taken as truth values. *)
Definition all_truthy (xs : list string) : bool := forallb PyStr.truthy xs.

Definition create_db_url (environ : gmap string string) : result string :=
  let postgres_user := getenv environ "POSTGRES_USER" "" in
  let postgres_password := getenv environ "POSTGRES_PASSWORD" "" in
  let postgres_host := getenv environ "POSTGRES_HOST" "" in
  let postgres_port := getenv environ "POSTGRES_PORT" "" in
  let postgres_db := getenv environ "POSTGRES_DB" "" in
  if negb (all_truthy [postgres_user; postgres_password; postgres_host;
                       postgres_port; postgres_db])
  then Raise (ValueError
                "One or more POSTGRES environment variables are not set or are empty.")
  else Ok ("postgresql+psycopg2://"
           +:+ postgres_user +:+ ":"
           +:+ postgres_password +:+ "@"
           +:+ postgres_host +:+ ":"
           +:+ postgres_port +:+ "/"
           +:+ postgres_db).

(** ** Program state

    The describer's mutable attributes, the entries of the cache directory
    and the trace of the calls that leave the process. *)

(** Modelled from the spec: [models/table.py] is not among the sources; a
    [TableInfo] is taken with the two fields the code reads and assigns,
    [table_name] and [table_summary]. *)
Record TableInfo : Type := {
  table_name : string;
  table_summary : string
}.

(** A file of the cache directory: [JsonOf d] is the text [json.dump] writes
    for [d.dict()], which [TableInfo.parse_file] reads back as [d]; any other
    content fails validation. *)
Inductive FileData : Type :=
| JsonOf (d : TableInfo)
| Unparsable (raw : string).

(** What [sqlalchemy.text] builds, seen through its query text. The names
    of bind parameters are not a separate input: the framework reads them off
    the ":name" markers of the text, and the code passes no parameter values
    to [execute]. *)
Record Statement : Type := {
  sql_text : string
}.

Definition text (s : string) : Statement := {| sql_text := s |}.

Definition Row : Type := list string.

(** A live connection: what [conn.execute(query).fetchall()] yields. *)
Record Connection : Type := {
  execute_fetchall : Statement -> result (list Row)
}.

Inductive Event : Type :=
| EvExecute (query : Statement)
| EvGlob (pattern : string) (found : list string)
| EvParseFile (name : string)
| EvProgram (rows : list Row) (exclude : gset string)
| EvWrite (path : string).

Record State : Type := {
  table_infos : list SQLTableSchema;
  loaded_tables : gset string;
  files : gmap string FileData;
  trace : list Event
}.

Definition set_table_infos (v : list SQLTableSchema) (s : State) : State :=
  {| table_infos := v; loaded_tables := loaded_tables s;
     files := files s; trace := trace s |}.

Definition set_loaded_tables (v : gset string) (s : State) : State :=
  {| table_infos := table_infos s; loaded_tables := v;
     files := files s; trace := trace s |}.

Definition set_files (v : gmap string FileData) (s : State) : State :=
  {| table_infos := table_infos s; loaded_tables := loaded_tables s;
     files := v; trace := trace s |}.

Definition set_trace (v : list Event) (s : State) : State :=
  {| table_infos := table_infos s; loaded_tables := loaded_tables s;
     files := files s; trace := v |}.

(** ** The state-and-exception monad *)

Definition M (A : Type) : Type := State -> result A * State.

Definition ret {A : Type} (a : A) : M A := fun s => (Ok a, s).

Definition raise {A : Type} (e : exn) : M A := fun s => (Raise e, s).

Definition bind {A B : Type} (m : M A) (k : A -> M B) : M B :=
  fun s =>
    match m s with
    | (Ok a, s') => k a s'
    | (Raise e, s') => (Raise e, s')
    end.

(** [try: m  except Exception as e: h e] *)
Definition try_except {A : Type} (m : M A) (h : exn -> M A) : M A :=
  fun s =>
    match m s with
    | (Ok a, s') => (Ok a, s')
    | (Raise e, s') => h e s'
    end.

Definition lift {A : Type} (r : result A) : M A := fun s => (r, s).

Definition emit (e : Event) : M unit :=
  fun s => (Ok tt, set_trace (trace s ++ [e]) s).

Declare Scope py_scope.
Delimit Scope py_scope with py.
Notation "x <- m ;; k" := (bind m (fun x => k))
  (at level 100, m at next level, right associativity) : py_scope.
Notation "m ;;; k" := (bind m (fun _ => k))
  (at level 100, right associativity) : py_scope.
Open Scope py_scope.

(** [for x in xs: body x] *)
Fixpoint for_each {A : Type} (xs : list A) (body : A -> M unit) : M unit :=
  match xs with
  | [] => ret tt
  | x :: rest => body x ;;; for_each rest body
  end.

(** ** [app/db.py]: queries *)

Definition execute (conn : Connection) (query : Statement) : M (list Row) :=
  emit (EvExecute query) ;;; lift (execute_fetchall conn query).

Definition get_table_rows (conn : option Connection) (table : string) : M (list Row) :=
  match conn with
  | None => raise (ValueError "Connection is not initialized.")
  | Some conn =>
      let query := text ("SELECT * FROM " +:+ table +:+ " LIMIT 5;") in
      results <- execute conn query ;;
      let result := results in
      ret result
  end.

Definition all_tables_sql : string :=
  nl +:+
  "    SELECT table_name FROM " +:+ nl +:+
  "    information_schema.tables " +:+ nl +:+
  "    WHERE table_schema = 'public' " +:+ nl +:+
  "      AND table_type = 'BASE TABLE';" +:+ nl +:+
  "    ".

(** [row[0]] *)
Definition row_first (row : Row) : result string :=
  match row with
  | [] => Raise (IndexError "tuple index out of range")
  | cell :: _ => Ok cell
  end.

(** [[row[0] for row in results]] *)
Fixpoint first_columns (results : list Row) : result (list string) :=
  match results with
  | [] => Ok []
  | row :: rest =>
      rbind (row_first row) (fun cell =>
        rbind (first_columns rest) (fun cells => Ok (cell :: cells)))
  end.

Definition get_all_tables (conn : option Connection) : M (list string) :=
  match conn with
  | None => raise (ValueError "Connection is not initialized.")
  | Some conn =>
      let query := text all_tables_sql in
      results <- execute conn query ;;
      lift (first_columns results)
  end.

(** ** [app/table.py]: [TableDescriber] *)

(** How the file system answers [open(out_file, "w")] followed by
    [json.dump]: the file is written, or [open] fails and nothing is
    created, or the dump fails and leaves a file that does not parse. *)
Inductive WriteOutcome : Type :=
| Written
| OpenFails
| DumpFails.

(** The attributes assigned once in [__init__]; [conn] is optional because
    the helpers of [app/db.py] test it against [None]. With them travels
    [disk], the answer of the file system to a write at each path, as
    [program] and [conn] carry the answers of the language model and of the
    database. *)
Record TableDescriber : Type := {
  table_info_dir : string;
  program : list Row -> gset string -> result TableInfo;
  conn : option Connection;
  disk : string -> WriteOutcome
}.

(** The state [__init__] leaves behind, over a cache directory [dir]. *)
Definition fresh (dir : gmap string FileData) : State :=
  {| table_infos := []; loaded_tables := ∅; files := dir; trace := [] |}.

(** *** Glob patterns

    [Path(dir).glob(pattern)] with a pattern of one path component matches
    the names of the entries of [dir] against the pattern as [fnmatch] reads
    it: "*" stands for any text, "?" for any character, "[seq]" for one
    character out of [seq] and "[!seq]" for one character not in it; a "["
    that is never closed stands for itself, and so does every other
    character. The fragment modelled leaves out the patterns with a "/"
    (several components), with "**", and the bracket expressions that are
    empty or hold one of the characters of [class_special] (ranges, escapes,
    nested brackets). *)
Inductive PatItem : Type :=
| Lit (c : ascii)
| AnyChar
| AnyString
| OneOf (negated : bool) (members : list ascii).

Inductive PatMode : Type :=
| Outside
| Opened
| Body (negated : bool) (members : list ascii).

Definition class_special : string := "-\[]^!/*?&~|".

Definition starts_with_star (p : string) : bool :=
  match p with
  | String c _ => Ascii.eqb c "*"
  | EmptyString => false
  end.

Fixpoint parse_items (m : PatMode) (p : string) : option (list PatItem) :=
  match p with
  | EmptyString =>
      match m with
      | Outside => Some []
      | _ => None
      end
  | String c p' =>
      match m with
      | Outside =>
          if Ascii.eqb c "/" then None
          else if Ascii.eqb c "*" then
            if starts_with_star p' then None
            else cons AnyString <$> parse_items Outside p'
          else if Ascii.eqb c "?" then cons AnyChar <$> parse_items Outside p'
          else if Ascii.eqb c "[" then
            if PyStr.mem_char "]" p' then parse_items Opened p'
            else cons (Lit c) <$> parse_items Outside p'
          else cons (Lit c) <$> parse_items Outside p'
      | Opened =>
          if Ascii.eqb c "!" then parse_items (Body true []) p'
          else if PyStr.mem_char c class_special then None
          else parse_items (Body false [c]) p'
      | Body negated members =>
          if Ascii.eqb c "]" then
            match members with
            | [] => None
            | _ => cons (OneOf negated members) <$> parse_items Outside p'
            end
          else if PyStr.mem_char c class_special then None
          else parse_items (Body negated (members ++ [c])) p'
      end
  end.

(** [fnmatch.translate(pattern)], on the fragment. *)
Definition translate (pattern : string) : option (list PatItem) :=
  parse_items Outside pattern.

Definition in_class (c : ascii) (members : list ascii) : bool :=
  existsb (Ascii.eqb c) members.

(** The whole of [name] matches the items. *)
Fixpoint fullmatch (items : list PatItem) (name : string) : bool :=
  match items with
  | [] =>
      match name with
      | EmptyString => true
      | String _ _ => false
      end
  | Lit c :: rest =>
      match name with
      | String d name' => Ascii.eqb c d && fullmatch rest name'
      | EmptyString => false
      end
  | AnyChar :: rest =>
      match name with
      | String _ name' => fullmatch rest name'
      | EmptyString => false
      end
  | OneOf negated members :: rest =>
      match name with
      | String d name' => xorb negated (in_class d members) && fullmatch rest name'
      | EmptyString => false
      end
  | AnyString :: rest =>
      (fix skip (name : string) : bool :=
         fullmatch rest name
         || match name with
            | String _ name' => skip name'
            | EmptyString => false
            end) name
  end.

(** The entries of [dir] selected by [Path(dir).glob(f"{filename}*")];
    [None] when the pattern is outside the fragment. *)
Definition glob_select (dir : gmap string FileData) (filename : string)
  : option (gmap string FileData) :=
  items ← translate (filename +:+ "*");
  Some (filter (λ entry, fullmatch items entry.1 = true) dir).

(** A name without pattern characters and without separator. *)
Fixpoint plain_name (t : string) : bool :=
  match t with
  | EmptyString => true
  | String c t' => negb (PyStr.mem_char c "*?[/") && plain_name t'
  end.

(** The items a plain name translates to: its characters, read literally. *)
Fixpoint literal_items (t : string) : list PatItem :=
  match t with
  | EmptyString => []
  | String c t' => Lit c :: literal_items t'
  end.

(** The entries whose name begins with [filename]: what the pattern selects
    when [filename] is a plain name. *)
Definition glob_matches (dir : gmap string FileData) (filename : string)
  : gmap string FileData :=
  filter (λ entry, String.prefix filename entry.1 = true) dir.

Definition glob (filename : string) : M (list string) :=
  fun s =>
    match glob_select (files s) filename with
    | Some selected =>
        let found := (map_to_list selected).*1 in
        (Ok found, set_trace (trace s ++ [EvGlob (filename +:+ "*") found]) s)
    | None => (Raise (Unmodelled "glob pattern"), s)
    end.

(** [TableInfo.parse_file(path)] *)
Definition parse_file (name : string) : M TableInfo :=
  fun s =>
    let s' := set_trace (trace s ++ [EvParseFile name]) s in
    match files s !! name with
    | Some (JsonOf d) => (Ok d, s')
    | Some (Unparsable _) => (Raise (ValidationError name), s')
    | None => (Raise (ExternalError ("No such file or directory: " +:+ name)), s')
    end.

Definition repr_paths (dir : string) (names : list string) : string :=
  "[" +:+ PyStr.join ", " (map (fun n => "PosixPath('" +:+ dir +:+ "/" +:+ n +:+ "')") names)
  +:+ "]".

Definition _get_table_info_with_index (self : TableDescriber) (filename : string)
  : M (option TableInfo) :=
  results_list <- glob filename ;;
  match results_list with
  | [] => ret None
  | [path] => d <- parse_file path ;; ret (Some d)
  | _ =>
      raise (ValueError ("More than one file matching index: "
                         +:+ repr_paths (table_info_dir self) results_list))
  end.

Definition call_program (self : TableDescriber) (rows : list Row) : M TableInfo :=
  fun s =>
    (program self rows (loaded_tables s),
     set_trace (trace s ++ [EvProgram rows (loaded_tables s)]) s).

Definition with_table_name (d : TableInfo) (name : string) : TableInfo :=
  {| table_name := name; table_summary := table_summary d |}.

Definition _parse_table_info (self : TableDescriber) (rows : list Row)
    (table_name : string) : M (option TableInfo) :=
  try_except
    (table_info <- call_program self rows ;;
     ret (Some (with_table_name table_info table_name)))
    (fun _ => ret None).

Definition none_has_no (attr : string) : exn :=
  AttributeError ("'NoneType' object has no attribute '" +:+ attr +:+ "'").

Definition _add_table_name (table_info : option TableInfo) : M bool :=
  match table_info with
  | None => raise (none_has_no "table_name")
  | Some d =>
      fun s =>
        let table_name := table_name d in
        if decide (table_name ∈ loaded_tables s)
        then (Ok false, s)
        else (Ok true, set_loaded_tables ({[table_name]} ∪ loaded_tables s) s)
  end.

(** [json.dump(d.dict(), open(out_file, "w"))], with [out_file] the entry
    [name] of the cache directory; the write can fail as [disk] says. *)
Definition dump_json (self : TableDescriber) (out_file name : string)
    (d : TableInfo) : M unit :=
  fun s =>
    let s' := set_trace (trace s ++ [EvWrite out_file]) s in
    match disk self out_file with
    | Written => (Ok tt, set_files (<[name := JsonOf d]> (files s)) s')
    | OpenFails => (Raise (ExternalError "open failed"), s')
    | DumpFails =>
        (Raise (ExternalError "dump failed"),
         set_files (<[name := Unparsable ""]> (files s)) s')
    end.

Definition _save_table_info_file (self : TableDescriber)
    (table_info : option TableInfo) (save_file : bool) : M unit :=
  if negb save_file then ret tt
  else
    match table_info with
    | None => raise (none_has_no "table_name")
    | Some d =>
        let out_file := table_info_dir self +:+ "/" +:+ table_name d +:+ ".json" in
        dump_json self out_file (table_name d +:+ ".json") d
    end.

Definition _process_parsing (self : TableDescriber) (table_name : string)
  : M (option TableInfo) :=
  rows <- get_table_rows (conn self) table_name ;;
  table_info <- _parse_table_info self rows table_name ;;
  save_file <- _add_table_name table_info ;;
  _save_table_info_file self table_info save_file ;;;
  ret table_info.

Definition append_table_info (schema : SQLTableSchema) : M unit :=
  fun s => (Ok tt, set_table_infos (table_infos s ++ [schema]) s).

(** The body of the [for table_name in tables] loop of [get_descriptions]. *)
Definition describe_table (self : TableDescriber) (table_name_ : string) : M unit :=
  table_info <- _get_table_info_with_index self table_name_ ;;
  table_info <- match table_info with
                | None => _process_parsing self table_name_
                | Some _ => ret table_info
                end ;;
  match table_info with
  | None => raise (none_has_no "table_name")
  | Some d =>
      append_table_info
        {| schema_table_name := table_name d;
           context_str := Some (table_summary d) |}
  end.

Definition get_descriptions (self : TableDescriber) : M (list SQLTableSchema) :=
  tables <- get_all_tables (conn self) ;;
  for_each tables (describe_table self) ;;;
  (fun s => (Ok (table_infos s), s)).

(** ** Test fixtures *)

Module Fixtures.

Definition users_info : TableInfo :=
  {| table_name := "users"; table_summary := "registered people" |}.


(** A database with [tables] in the public schema, each holding [stored]
    rows: the listing statement is answered with the table names, and every
    other statement with the first five stored rows. *)
Definition small_db (tables : list string) (stored : list Row) : Connection :=
  {| execute_fetchall := fun query =>
       if String.eqb (sql_text query) all_tables_sql
       then Ok (map (fun t => [t]) tables)
       else Ok (firstn 5 stored) |}.

Definition seven_rows : list Row :=
  [["1"]; ["2"]; ["3"]; ["4"]; ["5"]; ["6"]; ["7"]].

Definition summarize (rows : list Row) (exclude : gset string) : result TableInfo :=
  Ok {| table_name := "guess"; table_summary := "generated summary" |}.

Definition failing (rows : list Row) (exclude : gset string) : result TableInfo :=
  Raise (ExternalError "Could not parse output").

Definition describer (prog : list Row -> gset string -> result TableInfo)
    (tables : list string) : TableDescriber :=
  {| table_info_dir := "table_info";
     program := prog;
     conn := Some (small_db tables seven_rows);
     disk := fun _ => Written |}.

(** The same describer over a cache directory that cannot be written. *)
Definition read_only_describer (prog : list Row -> gset string -> result TableInfo)
    (tables : list string) : TableDescriber :=
  {| table_info_dir := "table_info";
     program := prog;
     conn := Some (small_db tables seven_rows);
     disk := fun _ => OpenFails |}.

End Fixtures.

Import Fixtures.

(** ** Vocabulary of the properties *)

Definition POSTGRES_VARS : list string :=
  ["POSTGRES_USER"; "POSTGRES_PASSWORD"; "POSTGRES_HOST"; "POSTGRES_PORT";
   "POSTGRES_DB"].

Definition unset_or_empty (environ : gmap string string) (v : string) : Prop :=
  environ !! v = None ∨ environ !! v = Some "".


Definition catalog : TableContextCreator :=
  {| creator_db := {| get_single_table_info := fun t =>
       if String.eqb t "users" then Ok "Table 'users' has columns: id (INTEGER)."
       else if String.eqb t "orders" then Ok "Table 'orders' has columns: total (NUMERIC)."
       else Raise (ValueError ("table '" +:+ t +:+ "' does not exist")) |} |}.


Definition entry (table : string) : string := table +:+ ".json".


Definition only_users_cached : gmap string FileData :=
  <["users.json" := JsonOf users_info]> ∅.



Definition out_file (self : TableDescriber) (t : string) : string :=
  table_info_dir self +:+ "/" +:+ t +:+ ".json".

(** The paths opened for writing, in the order of the trace. *)
Definition written (evs : list Event) : list string :=
  omap (λ e, match e with EvWrite p => Some p | _ => None end) evs.

(** Every write in [evs] is to the file of a table for which an earlier
    lookup in [evs] found nothing. *)
Definition writes_follow_miss (self : TableDescriber) (evs : list Event) : Prop :=
  ∀ i p, evs !! i = Some (EvWrite p) →
         ∃ t j, p = out_file self t ∧ (j < i)%nat
                ∧ evs !! j = Some (EvGlob (t +:+ "*") []).

(** What a stretch of a run, from [s] to [s'] with the events [evs], keeps:
    no entry of the directory disappears, the loaded tables only grow, every
    write is for a table that was not loaded before and is loaded after, no
    path is written twice, and every write follows a miss. *)
Record cache_frame (self : TableDescriber) (s s' : State) (evs : list Event)
  : Prop := {
  frame_trace : trace s' = trace s ++ evs;
  frame_dom : ∀ f, is_Some (files s !! f) → is_Some (files s' !! f);
  frame_loaded : loaded_tables s ⊆ loaded_tables s';
  frame_fresh : ∀ p, p ∈ written evs →
      ∃ t, p = out_file self t ∧ (t ∉ loaded_tables s) ∧ t ∈ loaded_tables s';
  frame_once : NoDup (written evs);
  frame_miss : writes_follow_miss self evs
}.

Definition schema_of (d : TableInfo) : SQLTableSchema :=
  {| schema_table_name := table_name d; context_str := Some (table_summary d) |}.








(** Every table recorded as loaded has its cache file. *)
Definition loaded_have_files (s : State) : Prop :=
  ∀ t, t ∈ loaded_tables s → is_Some (files s !! entry t).

Definition generated_orders : TableInfo :=
  {| table_name := "orders"; table_summary := "generated summary" |}.








(** ** [app/db.py]: engine and connection *)

(** An engine, seen through [engine.connect()], which can fail. *)
Record Engine : Type := { connect : result Connection }.

(** [init_db_engine], over the environment and the framework's
    [create_engine]. The [try] block covers both calls; only [ValueError] is
    caught and raised again with a prefixed message. *)
Definition init_db_engine (environ : gmap string string)
    (create_engine : string -> result Engine) : result Engine :=
  match rbind (create_db_url environ) create_engine with
  | Ok engine => Ok engine
  | Raise (ValueError e) =>
      Raise (ValueError ("error occurred while creating db engine: " +:+ e))
  | Raise e => Raise e
  end.

(** [if engine:] holds for every engine object and fails for [None]. *)
Definition get_db_connection (engine : option Engine) : result Connection :=
  match engine with
  | Some engine => connect engine
  | None => Raise (ValueError "Engine is not initialized.")
  end.

(** ** [app/table.py]: construction *)

(** What the path [table_info_dir] names before the describer is built. *)
Inductive DirNode : Type :=
| Missing
| NotADirectory
| Directory (entries : gmap string FileData).

(** [Path(self.table_info_dir).mkdir(parents=True, exist_ok=True)] *)
Definition _create_folder (node : DirNode) : result unit * DirNode :=
  match node with
  | Missing => (Ok tt, Directory ∅)
  | Directory entries => (Ok tt, Directory entries)
  | NotADirectory => (Raise (ExternalError "FileExistsError"), NotADirectory)
  end.

Definition dir_entries (node : DirNode) : gmap string FileData :=
  match node with
  | Directory entries => entries
  | _ => ∅
  end.

(** [TableDescriber.__init__]: the attributes are assigned in the order of
    the source, the connection before the folder is created. [disk] is the
    file system the describer will write to. *)
Definition TableDescriber__init__ (engine : option Engine)
    (program : list Row -> gset string -> result TableInfo)
    (table_info_dir : string) (node : DirNode) (disk : string -> WriteOutcome)
  : result (TableDescriber * State) * DirNode :=
  match get_db_connection engine with
  | Raise e => (Raise e, node)
  | Ok conn =>
      match _create_folder node with
      | (Raise e, node') => (Raise e, node')
      | (Ok _, node') =>
          (Ok ({| table_info_dir := table_info_dir; program := program;
                  conn := Some conn; disk := disk |},
               {| table_infos := []; loaded_tables := ∅;
                  files := dir_entries node'; trace := [] |}),
           node')
      end
  end.

(** ** Vocabulary of the further properties *)

(** The last statement of [parse_response_to_sql]: what is returned for the
    text kept after the two cuts. *)
Definition cleaned (response_content : string) : string :=
  PyStr.replace_char PyStr.newline PyStr.space
    (PyStr.strip (PyStr.strip_chars (PyStr.strip response_content) "```")).

(** Every name of the list is plain. *)
Definition plain_names (tables : list string) : Prop :=
  Forall (λ t, plain_name t = true) tables.

(** No listed table name is the beginning of the file name of another
    listed table. *)
Definition prefix_free (tables : list string) : Prop :=
  ∀ t1 t2, t1 ∈ tables → t2 ∈ tables →
           String.prefix t1 (entry t2) = true → t1 = t2.

(** Every cache file is the file of a table in [seen] and holds a
    [TableInfo] carrying that table's name. *)
Definition files_of_tables (seen : list string) (dir : gmap string FileData) : Prop :=
  ∀ f x, dir !! f = Some x →
         ∃ t d, t ∈ seen ∧ f = entry t ∧ x = JsonOf d ∧ table_name d = t.

(** * Properties *)

(** ** String facts *)

Lemma append_nil_l (t : string) : "" +:+ t = t.
Proof. reflexivity. Qed.

Lemma append_cons (c : ascii) (s t : string) : String c s +:+ t = String c (s +:+ t).
Proof. reflexivity. Qed.

Lemma length_append (s t : string) :
  String.length (s +:+ t) = (String.length s + String.length t)%nat.
Proof.
  induction s as [|c s IH]; [done|].
  rewrite append_cons. simpl. by rewrite IH.
Qed.

Lemma append_assoc (s t u : string) : s +:+ (t +:+ u) = (s +:+ t) +:+ u.
Proof.
  induction s as [|c s IH]; [done|].
  rewrite !append_cons. by rewrite IH.
Qed.

Lemma prefix_nil (t : string) : String.prefix "" t = true.
Proof. by destruct t. Qed.

Lemma prefix_app (s t : string) : String.prefix s (s +:+ t) = true.
Proof.
  induction s as [|c s IH]; [apply prefix_nil|].
  rewrite append_cons. simpl. by destruct (ascii_dec c c).
Qed.


Lemma append_inv_tail (s t u : string) : s +:+ u = t +:+ u → s = t.
Proof.
  revert t. induction s as [|c s IH]; intros [|d t] H.
  - done.
  - apply (f_equal String.length) in H.
    rewrite append_nil_l, length_append in H. simpl in H. lia.
  - apply (f_equal String.length) in H.
    rewrite append_nil_l, length_append in H. simpl in H. lia.
  - rewrite !append_cons in H. injection H as -> H. by rewrite (IH _ H).
Qed.

Lemma truthy_false (s : string) : PyStr.truthy s = false ↔ s = "".
Proof. by destruct s. Qed.

Lemma truthy_true (s : string) : PyStr.truthy s = true ↔ s ≠ "".
Proof. by destruct s. Qed.

(** ** The response parser *)

(** C2 (defect in the code): on a response holding both markers, the
    position of "SQLResult:" is measured in the whole content but applied to
    the content already cut after "SQLQuery:", so the cut falls too late: the
    returned query is not the text between the markers and it carries the
    marker "SQLResult". *)
Theorem parse_response_to_sql_stale_result_index :
  let response := chat ("SQLQuery: SELECT 1" +:+ nl +:+ "SQLResult: 1") in
  parse_response_to_sql response = "SELECT 1 SQLResult"
  ∧ parse_response_to_sql response ≠ "SELECT 1"
  ∧ PyStr.contains (parse_response_to_sql response) "SQLResult" = true.
Proof. by vm_compute. Qed.

(** ** The database URL *)

Ltac in_vars := apply list_elem_of_In; simpl; tauto.

Lemma getenv_truthy (environ : gmap string string) (v : string) :
  PyStr.truthy (getenv environ v "") = false ↔ unset_or_empty environ v.
Proof.
  unfold getenv, unset_or_empty. destruct (environ !! v) as [x|]; simpl.
  - rewrite truthy_false. split; [intros ->; by right | by intros [?| [= ->]]].
  - split; [by left | done].
Qed.

(** C9: [create_db_url] raises [ValueError] exactly when one of the five
    variables is unset or empty, and otherwise returns the URL assembled from
    the five values. *)
Theorem create_db_url_spec (environ : gmap string string) :
  ((∃ msg, create_db_url environ = Raise (ValueError msg))
   ↔ ∃ v, v ∈ POSTGRES_VARS ∧ unset_or_empty environ v)
  ∧ ((¬ ∃ v, v ∈ POSTGRES_VARS ∧ unset_or_empty environ v) →
     ∃ user password host port db,
       environ !! "POSTGRES_USER" = Some user
       ∧ environ !! "POSTGRES_PASSWORD" = Some password
       ∧ environ !! "POSTGRES_HOST" = Some host
       ∧ environ !! "POSTGRES_PORT" = Some port
       ∧ environ !! "POSTGRES_DB" = Some db
       ∧ create_db_url environ
         = Ok ("postgresql+psycopg2://" +:+ user +:+ ":" +:+ password +:+ "@"
               +:+ host +:+ ":" +:+ port +:+ "/" +:+ db)).
Proof.
  assert (Hall : all_truthy
            [getenv environ "POSTGRES_USER" ""; getenv environ "POSTGRES_PASSWORD" "";
             getenv environ "POSTGRES_HOST" ""; getenv environ "POSTGRES_PORT" "";
             getenv environ "POSTGRES_DB" ""] = false
          ↔ ∃ v, v ∈ POSTGRES_VARS ∧ unset_or_empty environ v).
  { unfold all_truthy, POSTGRES_VARS. simpl. split.
    - intros H.
      repeat match type of H with
             | (PyStr.truthy (getenv environ ?v "") && _)%bool = false =>
                 destruct (PyStr.truthy (getenv environ v "")) eqn:?;
                 [simpl in H | exists v; split; [in_vars | by apply getenv_truthy]]
             end.
      done.
    - intros (v & Hv & Hu). apply getenv_truthy in Hu.
      repeat (apply elem_of_cons in Hv as [-> | Hv];
              [rewrite Hu; by rewrite ?andb_false_r |]).
      by apply elem_of_nil in Hv. }
  unfold create_db_url. split.
  - rewrite negb_if. split.
    + intros [msg H]. apply Hall.
      by destruct (all_truthy _).
    + intros H. apply Hall in H. rewrite H. eauto.
  - intros Hno.
    assert (E : all_truthy
            [getenv environ "POSTGRES_USER" ""; getenv environ "POSTGRES_PASSWORD" "";
             getenv environ "POSTGRES_HOST" ""; getenv environ "POSTGRES_PORT" "";
             getenv environ "POSTGRES_DB" ""] = true).
    { destruct (all_truthy _) eqn:E; [done|]. exfalso. apply Hno. by apply Hall. }
    rewrite E. simpl. clear E Hall.
    assert (Hset : ∀ v, v ∈ POSTGRES_VARS →
                        ∃ x, environ !! v = Some x ∧ getenv environ v "" = x).
    { intros v Hv. unfold getenv. destruct (environ !! v) as [x|] eqn:E; [eauto|].
      exfalso. apply Hno. exists v. split; [done | by left]. }
    destruct (Hset "POSTGRES_USER") as (user & Eu & ->); [in_vars|].
    destruct (Hset "POSTGRES_PASSWORD") as (password & Ep & ->); [in_vars|].
    destruct (Hset "POSTGRES_HOST") as (host & Eh & ->); [in_vars|].
    destruct (Hset "POSTGRES_PORT") as (port & Eo & ->); [in_vars|].
    destruct (Hset "POSTGRES_DB") as (db & Ed & ->); [in_vars|].
    by exists user, password, host, port, db.
Qed.

(** ** The context builder *)





(** ** The database helpers *)



Lemma get_table_rows_run (c : Connection) (table : string) (s : State) :
  let q := text ("SELECT * FROM " +:+ table +:+ " LIMIT 5;") in
  get_table_rows (Some c) table s
  = (execute_fetchall c q, set_trace (trace s ++ [EvExecute q]) s).
Proof.
  unfold get_table_rows, execute, bind, emit, lift, ret. simpl.
  by destruct (execute_fetchall c _).
Qed.

Lemma get_all_tables_run (c : Connection) (s : State) :
  get_all_tables (Some c) s
  = (rbind (execute_fetchall c (text all_tables_sql)) first_columns,
     set_trace (trace s ++ [EvExecute (text all_tables_sql)]) s).
Proof.
  unfold get_all_tables, execute, bind, emit, lift. simpl.
  by destruct (execute_fetchall c _).
Qed.

(** C3 fails as stated: the statement [get_table_rows] executes has no
    fixed query text with the table supplied apart; the table name is part of
    the text, which differs for the tables "users" and "orders". *)
Lemma get_table_rows_has_no_fixed_text :
  trace (get_table_rows (Some (small_db [] seven_rows)) "users" (fresh ∅)).2
  = [EvExecute {| sql_text := "SELECT * FROM users LIMIT 5;" |}]
  ∧ trace (get_table_rows (Some (small_db [] seven_rows)) "orders" (fresh ∅)).2
    = [EvExecute {| sql_text := "SELECT * FROM orders LIMIT 5;" |}]
  ∧ trace (get_table_rows (Some (small_db [] seven_rows)) "users" (fresh ∅)).2
    ≠ trace (get_table_rows (Some (small_db [] seven_rows)) "orders" (fresh ∅)).2.
Proof.
  rewrite !get_table_rows_run. simpl. by split_and!.
Qed.

(** C3 (amended): [get_table_rows] writes the table name into the query
    text: for every table name it executes the one statement whose text is
    "SELECT * FROM <table> LIMIT 5;", so that different table names give
    different texts; [get_all_tables] executes one fixed text and takes no
    value from its caller. *)
Theorem db_statements_are_interpolated_text (c : Connection) (s : State) :
  (∀ table,
     trace (get_table_rows (Some c) table s).2
     = trace s ++ [EvExecute (text ("SELECT * FROM " +:+ table +:+ " LIMIT 5;"))])
  ∧ (∀ table table',
       sql_text (text ("SELECT * FROM " +:+ table +:+ " LIMIT 5;"))
       = sql_text (text ("SELECT * FROM " +:+ table' +:+ " LIMIT 5;")) →
       table = table')
  ∧ trace (get_all_tables (Some c) s).2
    = trace s ++ [EvExecute (text all_tables_sql)].
Proof.
  split; [|split].
  - intros table. by rewrite get_table_rows_run.
  - intros table table' E. simpl in E.
    apply String.app_inj in E. by apply append_inv_tail in E.
  - by rewrite get_all_tables_run.
Qed.





(** ** Glob patterns of plain names *)

Lemma prefix_entry (t : string) : String.prefix t (entry t) = true.
Proof. apply prefix_app. Qed.

Lemma entry_inj (t t' : string) : entry t = entry t' → t = t'.
Proof. apply append_inv_tail. Qed.

Lemma translate_plain (t : string) :
  plain_name t = true →
  translate (t +:+ "*") = Some (literal_items t ++ [AnyString]).
Proof.
  unfold translate. induction t as [|c t IH]; [done|].
  rewrite append_cons. simpl. intros [Hc Ht]%andb_true_iff.
  apply negb_true_iff in Hc. simpl in Hc.
  destruct (Ascii.eqb c "*") eqn:E1; [done|].
  destruct (Ascii.eqb c "?") eqn:E2; [done|].
  destruct (Ascii.eqb c "[") eqn:E3; [done|].
  destruct (Ascii.eqb c "/") eqn:E4; [done|].
  by rewrite (IH Ht).
Qed.

Lemma fullmatch_any_string (name : string) : fullmatch [AnyString] name = true.
Proof. induction name as [|c name IH]; [done|]. simpl in *. by rewrite IH. Qed.

Lemma fullmatch_plain (t name : string) :
  fullmatch (literal_items t ++ [AnyString]) name = String.prefix t name.
Proof.
  revert name. induction t as [|c t IH]; intros name.
  - rewrite prefix_nil. apply fullmatch_any_string.
  - destruct name as [|d name]; [done|]. simpl.
    rewrite IH. destruct (ascii_dec c d) as [->|Hne].
    + by rewrite Ascii.eqb_refl.
    + by apply Ascii.eqb_neq in Hne as ->.
Qed.

(** For a plain name the pattern selects the entries whose name begins with
    it. *)
Lemma glob_select_plain (dir : gmap string FileData) (t : string) :
  plain_name t = true → glob_select dir t = Some (glob_matches dir t).
Proof.
  intros Hp. unfold glob_select, glob_matches. rewrite (translate_plain t Hp).
  simpl. f_equal. apply map_filter_ext. intros f x _. simpl.
  by rewrite fullmatch_plain.
Qed.

(** ** The cache lookup *)

Lemma glob_matches_lookup (dir : gmap string FileData) (t f : string) (d : FileData) :
  glob_matches dir t !! f = Some d ↔ dir !! f = Some d ∧ String.prefix t f = true.
Proof. unfold glob_matches. by rewrite map_lookup_filter_Some. Qed.

Lemma glob_matches_empty (dir : gmap string FileData) (t : string) :
  glob_matches dir t = ∅ ↔ ∀ f, is_Some (dir !! f) → String.prefix t f = false.
Proof.
  split.
  - intros E f [d Hd]. destruct (String.prefix t f) eqn:P; [|done].
    assert (glob_matches dir t !! f = Some d) as H by by apply glob_matches_lookup.
    by rewrite E, lookup_empty in H.
  - intros H. apply map_eq. intros f. rewrite lookup_empty.
    destruct (glob_matches dir t !! f) as [d|] eqn:E; [|done].
    apply glob_matches_lookup in E as [Hd P].
    rewrite H in P; [done | by exists d].
Qed.

Lemma glob_matches_singleton (dir : gmap string FileData) (t f : string) (d : FileData) :
  dir !! f = Some d → String.prefix t f = true →
  (∀ f', is_Some (dir !! f') → String.prefix t f' = true → f' = f) →
  glob_matches dir t = {[f := d]}.
Proof.
  intros Hd P Huniq. apply map_eq. intros f'.
  destruct (decide (f' = f)) as [->|Hne].
  - rewrite lookup_singleton_eq. by apply glob_matches_lookup.
  - rewrite lookup_singleton_ne by done.
    destruct (glob_matches dir t !! f') as [d'|] eqn:E; [|done].
    apply glob_matches_lookup in E as [Hd' P'].
    destruct Hne. apply Huniq; [by exists d' | done].
Qed.

Lemma glob_matches_absent (dir : gmap string FileData) (t : string) :
  glob_matches dir t = ∅ → dir !! entry t = None.
Proof.
  intros E. destruct (dir !! entry t) as [x|] eqn:Hx; [|done].
  assert (glob_matches dir t !! entry t = Some x) as H
    by (apply glob_matches_lookup; split; [done | apply prefix_entry]).
  by rewrite E, lookup_empty in H.
Qed.

Lemma lookup_miss (self : TableDescriber) (t : string) (s : State) :
  plain_name t = true →
  glob_matches (files s) t = ∅ →
  _get_table_info_with_index self t s
  = (Ok None, set_trace (trace s ++ [EvGlob (t +:+ "*") []]) s).
Proof.
  intros Hp E. unfold _get_table_info_with_index, bind, glob.
  by rewrite (glob_select_plain _ _ Hp), E, map_to_list_empty.
Qed.

Lemma lookup_single (self : TableDescriber) (t f : string) (x : FileData) (s : State) :
  plain_name t = true →
  glob_matches (files s) t = {[f := x]} →
  _get_table_info_with_index self t s
  = (match x with
     | JsonOf d => Ok (Some d)
     | Unparsable _ => Raise (ValidationError f)
     end,
     set_trace (trace s ++ [EvGlob (t +:+ "*") [f]; EvParseFile f]) s).
Proof.
  intros Hp E. unfold _get_table_info_with_index, bind, glob.
  rewrite (glob_select_plain _ _ Hp), E, map_to_list_singleton. simpl.
  unfold parse_file. simpl.
  assert (files s !! f = Some x) as ->.
  { eapply glob_matches_lookup. rewrite E. apply lookup_singleton_eq. }
  unfold set_trace, ret. simpl. rewrite <- app_assoc. by destruct x.
Qed.

Lemma lookup_hit (self : TableDescriber) (t f : string) (d : TableInfo) (s : State) :
  plain_name t = true →
  glob_matches (files s) t = {[f := JsonOf d]} →
  _get_table_info_with_index self t s
  = (Ok (Some d),
     set_trace (trace s ++ [EvGlob (t +:+ "*") [f]; EvParseFile f]) s).
Proof. intros Hp E. by rewrite (lookup_single self t f (JsonOf d) s Hp E). Qed.




Lemma lookup_candidates (dir : gmap string FileData) (names : list string) (t f : string) :
  dom dir = list_to_set names →
  forallb (fun n => implb (String.prefix t n) (String.eqb n (entry t))) names = true →
  is_Some (dir !! f) → String.prefix t f = true → f = entry t.
Proof.
  intros Hdom Hall Hf P. apply elem_of_dom in Hf. rewrite Hdom in Hf.
  apply elem_of_list_to_set in Hf.
  rewrite forallb_forall in Hall. apply list_elem_of_In, Hall in Hf.
  rewrite P in Hf. simpl in Hf. by apply String.eqb_eq.
Qed.





(** ** Writes to the cache *)

Lemma out_file_inj (self : TableDescriber) (t t' : string) :
  out_file self t = out_file self t' → t = t'.
Proof.
  unfold out_file. intros E.
  apply String.app_inj in E. apply String.app_inj in E.
  by apply append_inv_tail in E.
Qed.

Lemma cache_frame_refl (self : TableDescriber) (s : State) : cache_frame self s s [].
Proof.
  split.
  - by rewrite app_nil_r.
  - done.
  - done.
  - intros p Hp. by apply elem_of_nil in Hp.
  - constructor.
  - intros i p Hi. by rewrite lookup_nil in Hi.
Qed.

Lemma cache_frame_reads (self : TableDescriber) (s s' : State) (evs : list Event) :
  trace s' = trace s ++ evs → files s' = files s →
  loaded_tables s' = loaded_tables s → written evs = [] →
  cache_frame self s s' evs.
Proof.
  intros Ht Hf Hl Hw. split.
  - done.
  - by rewrite Hf.
  - by rewrite Hl.
  - intros p Hp. rewrite Hw in Hp. by apply elem_of_nil in Hp.
  - rewrite Hw. constructor.
  - intros i p Hi.
    assert (p ∈ written evs) as Hp.
    { apply list_elem_of_omap. exists (EvWrite p). split; [|done].
      by apply list_elem_of_lookup_2 in Hi. }
    rewrite Hw in Hp. by apply elem_of_nil in Hp.
Qed.

Lemma cache_frame_trans (self : TableDescriber) (s1 s2 s3 : State)
    (evs1 evs2 : list Event) :
  cache_frame self s1 s2 evs1 → cache_frame self s2 s3 evs2 →
  cache_frame self s1 s3 (evs1 ++ evs2).
Proof.
  intros [T1 D1 L1 W1 N1 M1] [T2 D2 L2 W2 N2 M2]. split.
  - by rewrite T2, T1, app_assoc.
  - intros f Hf. by apply D2, D1.
  - by etrans.
  - intros p Hp. unfold written in Hp. rewrite omap_app in Hp.
    apply elem_of_app in Hp as [Hp|Hp].
    + destruct (W1 p Hp) as (t & -> & Hout & Hin).
      exists t. split_and!; [done | done |]. by apply L2.
    + destruct (W2 p Hp) as (t & -> & Hout & Hin).
      exists t. split_and!; [done | | done].
      intros Hin1. apply Hout. by apply L1.
  - unfold written. rewrite omap_app. apply NoDup_app. split_and!; [done| |done].
    intros p Hp1 Hp2.
    destruct (W1 p Hp1) as (t & -> & _ & Hin).
    destruct (W2 _ Hp2) as (t' & E & Hout & _).
    apply out_file_inj in E as <-. done.
  - intros i p Hi. apply lookup_app_Some in Hi as [Hi|[Hle Hi]].
    + destruct (M1 i p Hi) as (t & j & -> & Hj & Hg).
      exists t, j. split_and!; [done | done |]. by apply lookup_app_l_Some.
    + destruct (M2 _ p Hi) as (t & j & -> & Hj & Hg).
      exists t, (length evs1 + j)%nat. split_and!; [done | lia |].
      by rewrite lookup_app_r, Nat.add_comm, Nat.add_sub by lia.
Qed.

Ltac unfold_describer :=
  unfold describe_table, _get_table_info_with_index, _process_parsing,
    _parse_table_info, _add_table_name, _save_table_info_file, get_table_rows,
    call_program, dump_json, append_table_info, parse_file, glob, execute, emit,
    lift, try_except, bind, ret, raise,
    set_trace, set_files, set_loaded_tables, set_table_infos.

Ltac norm_trace :=
  simpl;
  repeat match goal with
         | |- context [(?l ++ ?a) ++ ?b] => rewrite <- (app_assoc l a b)
         end;
  simpl.

(** One round of the loop either attempts no write and leaves the loaded
    tables and the directory as they were, or has found no candidate for a
    table that was not loaded, loads it and attempts one write, to the
    table's own file. *)
Lemma describe_table_effect (self : TableDescriber) (t : string) (s : State) :
  ∃ evs, trace (describe_table self t s).2 = trace s ++ evs
    ∧ ((written evs = []
        ∧ loaded_tables (describe_table self t s).2 = loaded_tables s
        ∧ files (describe_table self t s).2 = files s)
       ∨ (glob_select (files s) t = Some ∅
          ∧ (t ∉ loaded_tables s)
          ∧ loaded_tables (describe_table self t s).2 = {[t]} ∪ loaded_tables s
          ∧ (∃ q rows excl,
               evs = [EvGlob (t +:+ "*") []; EvExecute q; EvProgram rows excl;
                      EvWrite (out_file self t)])
          ∧ (files (describe_table self t s).2 = files s
             ∨ ∃ x, files (describe_table self t s).2
                    = <[entry t := x]> (files s)))).
Proof.
  unfold_describer. simpl.
  destruct (glob_select (files s) t) as [sel|] eqn:Hsel; simpl;
    [|exists []; rewrite app_nil_r; split; [done | by left]].
  destruct (map_to_list sel) as [|[f1 x1] [|[f2 x2] l]] eqn:E; simpl.
  - apply map_to_list_empty_iff in E. subst sel.
    repeat (case_match; simpl in *; simplify_eq).
    all: norm_trace; eexists; (split; [reflexivity|]).
    all: try (left; by split_and!).
    all: right; split_and!; try done; try (by repeat eexists).
    all: first [by left | right; by eexists].
  - repeat (case_match; simpl in *; simplify_eq).
    all: norm_trace; eexists; (split; [reflexivity|]); left; by split_and!.
  - eexists; (split; [reflexivity|]); left; by split_and!.
Qed.

Lemma describe_table_frame (self : TableDescriber) (t : string) (s : State) :
  ∃ evs, cache_frame self s (describe_table self t s).2 evs.
Proof.
  destruct (describe_table_effect self t s)
    as (evs & Ht & [(Hw & Hl & Hf)
                   | (Hmiss & Hout & Hl & (q & rows & excl & ->) & Hf)]).
  - exists evs. by apply cache_frame_reads.
  - eexists. split.
    + exact Ht.
    + intros f Hsome. destruct Hf as [->|[x ->]]; [done|].
      destruct (decide (entry t = f)) as [->|Hne].
      * rewrite lookup_insert_eq. by eexists.
      * by rewrite lookup_insert_ne.
    + rewrite Hl. apply union_subseteq_r.
    + intros p Hp. apply list_elem_of_singleton in Hp as ->.
      exists t. split_and!; [done | done |]. rewrite Hl.
      apply elem_of_union_l. by apply elem_of_singleton.
    + apply NoDup_singleton.
    + intros [|[|[|[|i]]]] p Hi; simpl in Hi; rewrite ?lookup_nil in Hi; simplify_eq.
      exists t, 0%nat. split_and!; [done | lia | done].
Qed.

Lemma for_each_describe_frame (self : TableDescriber) (tables : list string) (s : State) :
  ∃ evs, cache_frame self s (for_each tables (describe_table self) s).2 evs.
Proof.
  revert s. induction tables as [|t tables IH]; intros s.
  - exists []. apply cache_frame_refl.
  - simpl. unfold bind at 1.
    destruct (describe_table_frame self t s) as (evs1 & H1).
    destruct (describe_table self t s) as [[[]|e] s1].
    + destruct (IH s1) as (evs2 & H2).
      exists (evs1 ++ evs2). by eapply cache_frame_trans.
    + by exists evs1.
Qed.




Lemma get_descriptions_unfold (self : TableDescriber) (s : State) :
  get_descriptions self s
  = match get_all_tables (conn self) s with
    | (Ok tables, s0) =>
        match for_each tables (describe_table self) s0 with
        | (Ok _, s1) => (Ok (table_infos s1), s1)
        | (Raise e, s1) => (Raise e, s1)
        end
    | (Raise e, s0) => (Raise e, s0)
    end.
Proof. reflexivity. Qed.




(** ** Failure of the completion program *)

Lemma parse_table_info_absorbs (self : TableDescriber) (rows : list Row)
    (t : string) (s : State) (e : exn) :
  program self rows (loaded_tables s) = Raise e →
  (_parse_table_info self rows t s).1 = Ok None.
Proof.
  intros H. unfold _parse_table_info, try_except, bind, call_program, ret.
  by rewrite H.
Qed.

Lemma add_table_name_of_none (s : State) :
  _add_table_name None s = (Raise (none_has_no "table_name"), s).
Proof. reflexivity. Qed.

(** C6 (defect in the code): when the completion program raises,
    [_parse_table_info] does return [None], but [_process_parsing] hands that
    [None] to [_add_table_name], which reads its [table_name]: an
    [AttributeError] leaves [_process_parsing] and [get_descriptions]. *)
Theorem program_failure_escapes_as_attribute_error :
  let self := describer failing ["users"] in
  (_parse_table_info self (take 5 seven_rows) "users" (fresh ∅)).1 = Ok None
  ∧ (_process_parsing self "users" (fresh ∅)).1
    = Raise (AttributeError "'NoneType' object has no attribute 'table_name'")
  ∧ (get_descriptions self (fresh ∅)).1
    = Raise (AttributeError "'NoneType' object has no attribute 'table_name'").
Proof. by vm_compute. Qed.

(** ** Cache-or-generate *)

Lemma fresh_loaded_have_files (dir : gmap string FileData) :
  loaded_have_files (fresh dir).
Proof. intros t Ht. by apply elem_of_empty in Ht. Qed.



Lemma describe_table_hit (self : TableDescriber) (t f : string) (d : TableInfo)
    (s : State) :
  plain_name t = true →
  glob_matches (files s) t = {[f := JsonOf d]} →
  describe_table self t s
  = (Ok tt,
     {| table_infos := table_infos s ++ [schema_of d];
        loaded_tables := loaded_tables s;
        files := files s;
        trace := trace s ++ [EvGlob (t +:+ "*") [f]; EvParseFile f] |}).
Proof.
  intros Hp E. unfold describe_table. unfold bind at 1.
  rewrite (lookup_hit self t f d s Hp E). reflexivity.
Qed.

Lemma describe_table_miss (self : TableDescriber) (c : Connection) (t : string)
    (rows : list Row) (d : TableInfo) (s : State) :
  plain_name t = true →
  glob_matches (files s) t = ∅ →
  conn self = Some c →
  execute_fetchall c (text ("SELECT * FROM " +:+ t +:+ " LIMIT 5;")) = Ok rows →
  program self rows (loaded_tables s) = Ok d →
  t ∉ loaded_tables s →
  disk self (out_file self t) = Written →
  describe_table self t s
  = (Ok tt,
     {| table_infos := table_infos s ++ [schema_of (with_table_name d t)];
        loaded_tables := {[t]} ∪ loaded_tables s;
        files := <[entry t := JsonOf (with_table_name d t)]> (files s);
        trace := trace s ++ [EvGlob (t +:+ "*") [];
                             EvExecute (text ("SELECT * FROM " +:+ t +:+ " LIMIT 5;"));
                             EvProgram rows (loaded_tables s);
                             EvWrite (out_file self t)] |}).
Proof.
  intros Hp E Hc Hrows Hprog Hnew Hdisk. unfold describe_table. unfold bind at 1.
  rewrite (lookup_miss self t s Hp E).
  unfold _process_parsing, _parse_table_info, _add_table_name, _save_table_info_file,
    get_table_rows, call_program, dump_json, append_table_info, execute, emit,
    lift, try_except, bind, ret, raise,
    set_trace, set_files, set_loaded_tables, set_table_infos.
  rewrite Hc. simpl. rewrite Hrows. simpl. rewrite Hprog. simpl.
  destruct (decide (t ∈ loaded_tables s)) as [Hin|_]; [done|]. simpl.
  unfold out_file in Hdisk. rewrite Hdisk.
  unfold schema_of, out_file, entry. by norm_trace.
Qed.

Lemma absent_not_loaded (s : State) (t : string) :
  loaded_have_files s → glob_matches (files s) t = ∅ → t ∉ loaded_tables s.
Proof.
  intros Hinv E Hin. destruct (Hinv t Hin) as [x Hx].
  by rewrite (glob_matches_absent _ _ E) in Hx.
Qed.





(** * Further properties *)

(** ** The response parser, branch by branch *)

Lemma take_append (a b : string) : PyStr.take (String.length a) (a +:+ b) = a.
Proof.
  induction a as [|c a IH]; [by destruct b|].
  rewrite append_cons. simpl. by rewrite IH.
Qed.

Lemma take_append_more (a b : string) (k : nat) :
  PyStr.take (String.length a + k) (a +:+ b) = a +:+ PyStr.take k b.
Proof.
  induction a as [|c a IH]; [done|].
  rewrite !append_cons. simpl. by rewrite IH.
Qed.

Lemma drop_append_more (a b : string) (k : nat) :
  PyStr.drop (String.length a + k) (a +:+ b) = PyStr.drop k b.
Proof.
  induction a as [|c a IH]; [done|].
  rewrite append_cons. simpl. exact IH.
Qed.

Lemma bound_within (s : string) (n : nat) :
  (n ≤ String.length s)%nat → PyStr.bound s (Z.of_nat n) = n.
Proof.
  intros H. unfold PyStr.bound.
  destruct (Z.ltb_spec (Z.of_nat n) 0); [lia|].
  rewrite Z.min_l by lia. apply Nat2Z.id.
Qed.

Lemma take_all (s : string) (n : nat) :
  (String.length s ≤ n)%nat → PyStr.take n s = s.
Proof.
  revert n. induction s as [|c s IH]; intros n H; [by destruct n|].
  destruct n as [|n]; simpl in *; [lia|]. rewrite IH; [done | lia].
Qed.

Lemma drop_all (s : string) (n : nat) :
  (String.length s ≤ n)%nat → PyStr.drop n s = "".
Proof.
  revert n. induction s as [|c s IH]; intros n H; [by destruct n|].
  destruct n as [|n]; simpl in *; [lia|]. apply IH. lia.
Qed.

Lemma slice_to_nat (s : string) (n : nat) :
  PyStr.slice_to s (Z.of_nat n) = PyStr.take n s.
Proof.
  unfold PyStr.slice_to, PyStr.bound.
  destruct (Z.ltb_spec (Z.of_nat n) 0); [lia|].
  destruct (Nat.le_gt_cases n (String.length s)).
  - rewrite Z.min_l by lia. by rewrite Nat2Z.id.
  - rewrite Z.min_r by lia. rewrite Nat2Z.id.
    rewrite !take_all; [done | lia | lia].
Qed.

Lemma slice_from_nat (s : string) (n : nat) :
  PyStr.slice_from s (Z.of_nat n) = PyStr.drop n s.
Proof.
  unfold PyStr.slice_from, PyStr.bound.
  destruct (Z.ltb_spec (Z.of_nat n) 0); [lia|].
  destruct (Nat.le_gt_cases n (String.length s)).
  - rewrite Z.min_l by lia. by rewrite Nat2Z.id.
  - rewrite Z.min_r by lia. rewrite Nat2Z.id.
    rewrite !drop_all; [done | lia | lia].
Qed.

(** The two cuts of [parse_response_to_sql], by the positions found. *)
Lemma parse_response_cuts (content : string) (a b : Z) :
  PyStr.find content "SQLQuery:" = a →
  PyStr.find content "SQLResult:" = b →
  parse_response_to_sql (chat content)
  = cleaned
      (let after := if (a =? -1)%Z then content
                    else PyStr.slice_from content (a + 9) in
       if (b =? -1)%Z then after else PyStr.slice_to after b).
Proof. intros <- <-. reflexivity. Qed.

(** X1: with the marker "SQLQuery:" alone, the parser returns the cleaned
    text that follows the first occurrence of the marker. *)
Theorem parse_response_query_marker_only (pre q : string) :
  PyStr.find (pre +:+ "SQLQuery:" +:+ q) "SQLQuery:" = Z.of_nat (String.length pre) →
  PyStr.find (pre +:+ "SQLQuery:" +:+ q) "SQLResult:" = (-1)%Z →
  parse_response_to_sql (chat (pre +:+ "SQLQuery:" +:+ q)) = cleaned q.
Proof.
  intros Ha Hb. rewrite (parse_response_cuts _ _ _ Ha Hb). simpl.
  destruct (Z.eqb_spec (Z.of_nat (String.length pre)) (-1)); [lia|].
  f_equal.
  replace (Z.of_nat (String.length pre) + 9)%Z
    with (Z.of_nat (String.length pre + 9)) by lia.
  rewrite slice_from_nat, drop_append_more. reflexivity.
Qed.

Lemma parse_response_query_marker_only_witness :
  parse_response_to_sql
    (chat ("Here you go. " +:+ "SQLQuery:" +:+ " ```SELECT name" +:+ nl +:+ "FROM users``` "))
  = "SELECT name FROM users".
Proof.
  rewrite (parse_response_query_marker_only "Here you go. ");
    [reflexivity | reflexivity | reflexivity].
Defined.

(** X2: with the marker "SQLResult:" alone, the parser returns the cleaned
    text that precedes the first occurrence of the marker. *)
Theorem parse_response_result_marker_only (pre post : string) :
  PyStr.find (pre +:+ "SQLResult:" +:+ post) "SQLQuery:" = (-1)%Z →
  PyStr.find (pre +:+ "SQLResult:" +:+ post) "SQLResult:"
  = Z.of_nat (String.length pre) →
  parse_response_to_sql (chat (pre +:+ "SQLResult:" +:+ post)) = cleaned pre.
Proof.
  intros Ha Hb. rewrite (parse_response_cuts _ _ _ Ha Hb). simpl.
  destruct (Z.eqb_spec (Z.of_nat (String.length pre)) (-1)); [lia|].
  f_equal. by rewrite slice_to_nat, take_append.
Qed.

Lemma parse_response_result_marker_only_witness :
  parse_response_to_sql (chat (("SELECT 1" +:+ nl) +:+ "SQLResult:" +:+ " 1"))
  = "SELECT 1".
Proof.
  rewrite (parse_response_result_marker_only ("SELECT 1" +:+ nl));
    [reflexivity | reflexivity | reflexivity].
Defined.

(** X3: with both markers, "SQLQuery:" first, the second cut is made at the
    position "SQLResult:" had in the whole content, applied to the text that
    follows "SQLQuery:". The text kept is therefore the text between the
    markers followed by "SQLResult" and by as many further characters as
    preceded "SQLQuery:". *)
Theorem parse_response_both_markers (pre q post : string) :
  PyStr.find (pre +:+ "SQLQuery:" +:+ q +:+ "SQLResult:" +:+ post) "SQLQuery:"
  = Z.of_nat (String.length pre) →
  PyStr.find (pre +:+ "SQLQuery:" +:+ q +:+ "SQLResult:" +:+ post) "SQLResult:"
  = Z.of_nat (String.length pre + 9 + String.length q) →
  parse_response_to_sql
    (chat (pre +:+ "SQLQuery:" +:+ q +:+ "SQLResult:" +:+ post))
  = cleaned (q +:+ "SQLResult" +:+ PyStr.take (String.length pre) (":" +:+ post)).
Proof.
  intros Ha Hb. rewrite (parse_response_cuts _ _ _ Ha Hb). simpl.
  destruct (Z.eqb_spec (Z.of_nat (String.length pre)) (-1)); [lia|].
  destruct (Z.eqb_spec (Z.of_nat (String.length pre + 9 + String.length q)) (-1));
    [lia|].
  f_equal.
  replace (Z.of_nat (String.length pre) + 9)%Z
    with (Z.of_nat (String.length pre + 9)) by lia.
  rewrite slice_from_nat, drop_append_more.
  change (PyStr.drop 9 ("SQLQuery:" +:+ q +:+ "SQLResult:" +:+ post))
    with (q +:+ "SQLResult:" +:+ post).
  rewrite slice_to_nat.
  replace (String.length pre + 9 + String.length q)%nat
    with (String.length q + (9 + String.length pre))%nat by lia.
  rewrite take_append_more. reflexivity.
Qed.

Lemma parse_response_both_markers_witness :
  parse_response_to_sql
    (chat ("Sure" +:+ "SQLQuery:" +:+ " SELECT 1 " +:+ "SQLResult:" +:+ " 1, 2, 3"))
  = "SELECT 1 SQLResult: 1,".
Proof.
  rewrite (parse_response_both_markers "Sure" " SELECT 1 " " 1, 2, 3");
    [reflexivity | reflexivity | reflexivity].
Defined.

(** ** What the cleaning guarantees *)

Lemma find_char_replaced (old new : ascii) (s : string) (i : nat) :
  old ≠ new →
  PyStr.find_from (String old "") (PyStr.replace_char old new s) i = None.
Proof.
  intros Hne. revert i. induction s as [|c s IH]; intros i; [done|].
  simpl. destruct (Ascii.eqb_spec c old) as [->|Hc].
  - destruct (ascii_dec old new); [done | apply IH].
  - destruct (ascii_dec old c); [by subst | apply IH].
Qed.

(** X4: the query returned by [parse_response_to_sql] contains no newline,
    whatever the response. *)
Theorem parse_response_has_no_newline (response : ChatResponse) :
  PyStr.contains (parse_response_to_sql response) nl = false.
Proof.
  unfold PyStr.contains, parse_response_to_sql, nl.
  by rewrite find_char_replaced.
Qed.

Lemma lstrip_by_fixed (p : ascii → bool) (s : string) :
  PyStr.lstrip_by p (PyStr.lstrip_by p s) = PyStr.lstrip_by p s.
Proof.
  induction s as [|c s IH]; [done|].
  simpl. destruct (p c) eqn:E; [done|]. simpl. by rewrite E.
Qed.

Lemma rstrip_by_fixed (p : ascii → bool) (s : string) :
  PyStr.rstrip_by p (PyStr.rstrip_by p s) = PyStr.rstrip_by p s.
Proof.
  induction s as [|c s IH]; [done|].
  simpl. destruct (PyStr.rstrip_by p s) as [|d r] eqn:E.
  - destruct (p c) eqn:Ec; [done|]. simpl. by rewrite Ec.
  - simpl in *. by rewrite IH.
Qed.

(** Stripping on the right keeps a string that does not begin with a
    stripped character from beginning with one. *)
Lemma lstrip_rstrip_by (p : ascii → bool) (s : string) :
  PyStr.lstrip_by p s = s →
  PyStr.lstrip_by p (PyStr.rstrip_by p s) = PyStr.rstrip_by p s.
Proof.
  destruct s as [|c s]; [done|]. simpl.
  destruct (p c) eqn:Ec.
  - intros H. apply (f_equal String.length) in H. simpl in H.
    assert (∀ t, (String.length (PyStr.lstrip_by p t) ≤ String.length t)%nat) as Hle.
    { induction t as [|d t IHt]; [done|]. simpl. destruct (p d); simpl; lia. }
    specialize (Hle s). lia.
  - intros _. destruct (PyStr.rstrip_by p s); simpl; by rewrite Ec.
Qed.

Lemma strip_by_fixed (p : ascii → bool) (s : string) :
  PyStr.strip_by p (PyStr.strip_by p s) = PyStr.strip_by p s.
Proof.
  unfold PyStr.strip_by.
  rewrite (lstrip_rstrip_by p (PyStr.lstrip_by p s)) by apply lstrip_by_fixed.
  apply rstrip_by_fixed.
Qed.

Lemma replace_char_nonempty (old new : ascii) (s : string) :
  PyStr.replace_char old new s = "" → s = "".
Proof. by destruct s. Qed.

(** Replacing a stripped character inside a stripped string leaves it
    stripped. *)
Lemma lstrip_replace_char (p : ascii → bool) (old new : ascii) (s : string) :
  p old = true → PyStr.lstrip_by p s = s →
  PyStr.lstrip_by p (PyStr.replace_char old new s) = PyStr.replace_char old new s.
Proof.
  intros Hold. destruct s as [|c s]; [done|]. simpl.
  destruct (p c) eqn:Ec.
  - intros H. apply (f_equal String.length) in H. simpl in H.
    assert (∀ t, (String.length (PyStr.lstrip_by p t) ≤ String.length t)%nat) as Hle.
    { induction t as [|d t IHt]; [done|]. simpl. destruct (p d); simpl; lia. }
    specialize (Hle s). lia.
  - intros _. destruct (Ascii.eqb_spec c old) as [->|_]; [congruence|].
    by rewrite Ec.
Qed.

Lemma rstrip_replace_char (p : ascii → bool) (old new : ascii) (s : string) :
  p old = true → PyStr.rstrip_by p s = s →
  PyStr.rstrip_by p (PyStr.replace_char old new s) = PyStr.replace_char old new s.
Proof.
  intros Hold. induction s as [|c s IH]; [done|]. simpl.
  destruct (PyStr.rstrip_by p s) as [|d r] eqn:E.
  - destruct (p c) eqn:Ec; [done|]. intros [= <-]. simpl.
    destruct (Ascii.eqb_spec c old) as [->|_]; [congruence|]. by rewrite Ec.
  - intros [= Hs]. rewrite Hs in IH. rewrite (IH eq_refl).
    destruct (PyStr.replace_char old new s) eqn:Er; [|done].
    apply replace_char_nonempty in Er. by subst.
Qed.

(** X5: the query returned by [parse_response_to_sql] neither begins nor
    ends with white space: stripping it again changes nothing. *)
Theorem parse_response_is_stripped (response : ChatResponse) :
  PyStr.strip (parse_response_to_sql response) = parse_response_to_sql response.
Proof.
  unfold parse_response_to_sql. cbv zeta.
  set (kept := PyStr.strip_chars _ _).
  unfold PyStr.strip, PyStr.strip_by.
  rewrite lstrip_replace_char; [| done |].
  - apply rstrip_replace_char; [done|]. apply rstrip_by_fixed.
  - apply lstrip_rstrip_by, lstrip_by_fixed.
Qed.

(** ** The engine and the table listing *)

Lemma create_db_url_missing (environ : gmap string string) :
  (∃ v, v ∈ POSTGRES_VARS ∧ unset_or_empty environ v) →
  create_db_url environ
  = Raise (ValueError
             "One or more POSTGRES environment variables are not set or are empty.").
Proof.
  intros (v & Hv & Hu). apply getenv_truthy in Hu.
  unfold create_db_url, all_truthy. simpl.
  unfold POSTGRES_VARS in Hv.
  repeat (apply elem_of_cons in Hv as [-> | Hv];
          [rewrite Hu; by rewrite ?andb_false_r |]).
  by apply elem_of_nil in Hv.
Qed.

Lemma create_db_url_present (environ : gmap string string) :
  (¬ ∃ v, v ∈ POSTGRES_VARS ∧ unset_or_empty environ v) →
  ∃ url, create_db_url environ = Ok url.
Proof.
  intros Hno. unfold create_db_url.
  destruct (all_truthy _) eqn:E; simpl; [eauto|].
  exfalso. apply Hno. unfold all_truthy in E. simpl in E.
  repeat match type of E with
         | (PyStr.truthy (getenv environ ?v "") && _)%bool = false =>
             destruct (PyStr.truthy (getenv environ v "")) eqn:?;
             [simpl in E | exists v; split; [in_vars | by apply getenv_truthy]]
         end.
  done.
Qed.

(** X6: [init_db_engine] on an environment with an unset or empty variable
    raises [ValueError] with the message of [create_db_url] behind the prefix
    "error occurred while creating db engine: ", without consulting
    [create_engine]; on a complete environment it hands the URL to
    [create_engine], and every [ValueError] it raises carries the prefix. *)
Theorem init_db_engine_failure_is_prefixed (environ : gmap string string)
    (create_engine : string → result Engine) :
  ((∃ v, v ∈ POSTGRES_VARS ∧ unset_or_empty environ v) →
   init_db_engine environ create_engine
   = Raise (ValueError
       ("error occurred while creating db engine: " +:+
        "One or more POSTGRES environment variables are not set or are empty.")))
  ∧ ((¬ ∃ v, v ∈ POSTGRES_VARS ∧ unset_or_empty environ v) →
     ∃ url, create_db_url environ = Ok url
            ∧ ∀ engine, create_engine url = Ok engine →
                        init_db_engine environ create_engine = Ok engine)
  ∧ (∀ msg, init_db_engine environ create_engine = Raise (ValueError msg) →
            String.prefix "error occurred while creating db engine: " msg = true).
Proof.
  split; [|split].
  - intros H. unfold init_db_engine. by rewrite (create_db_url_missing environ H).
  - intros H. destruct (create_db_url_present environ H) as [url Hurl].
    exists url. split; [done|]. intros engine He.
    unfold init_db_engine. rewrite Hurl. simpl. by rewrite He.
  - intros msg. unfold init_db_engine.
    destruct (rbind _ _) as [engine|[]]; try done.
    intros [= <-]. apply prefix_app.
Qed.

Lemma first_columns_heads (rows : list Row) (names : list string) :
  Forall2 (λ row name, head row = Some name) rows names →
  first_columns rows = Ok names.
Proof.
  induction 1 as [|row name rows names Hhead _ IH]; [done|].
  simpl. destruct row as [|cell row]; [done|]. injection Hhead as ->.
  simpl. by rewrite IH.
Qed.

Lemma first_columns_empty_row (rows : list Row) :
  [] ∈ rows → ∃ msg, first_columns rows = Raise (IndexError msg).
Proof.
  induction rows as [|row rows IH]; intros Hin; [by apply elem_of_nil in Hin|].
  apply elem_of_cons in Hin as [<-|Hin]; [by eexists|].
  destruct (IH Hin) as [msg Hmsg]. simpl.
  destruct row as [|cell row]; [by eexists|]. simpl. rewrite Hmsg. by eexists.
Qed.

(** X7: on a live connection [get_all_tables] executes the listing statement
    once and returns the first column of every row fetched, in the order
    fetched; a row without columns makes it raise [IndexError]. *)
Theorem get_all_tables_first_columns (c : Connection) (s : State) (rows : list Row) :
  execute_fetchall c (text all_tables_sql) = Ok rows →
  (get_all_tables (Some c) s).2
  = set_trace (trace s ++ [EvExecute (text all_tables_sql)]) s
  ∧ (∀ names, Forall2 (λ row name, head row = Some name) rows names →
              (get_all_tables (Some c) s).1 = Ok names)
  ∧ ([] ∈ rows → ∃ msg, (get_all_tables (Some c) s).1 = Raise (IndexError msg)).
Proof.
  intros Hrows. rewrite get_all_tables_run, Hrows. simpl.
  split; [done|]. split.
  - apply first_columns_heads.
  - apply first_columns_empty_row.
Qed.

Lemma get_all_tables_first_columns_witness :
  (get_all_tables (Some (small_db ["users"; "orders"] seven_rows)) (fresh ∅)).1
  = Ok ["users"; "orders"].
Proof.
  apply (get_all_tables_first_columns
           (small_db ["users"; "orders"] seven_rows) (fresh ∅)
           [["users"]; ["orders"]]); [reflexivity|].
  repeat constructor.
Defined.

(** ** Construction of the describer *)

Lemma get_descriptions_lists_first (self : TableDescriber) (c : Connection)
    (s : State) :
  conn self = Some c →
  ∃ evs, trace (get_descriptions self s).2
         = trace s ++ EvExecute (text all_tables_sql) :: evs.
Proof.
  intros Hc. unfold get_descriptions. unfold bind at 1.
  rewrite Hc, get_all_tables_run.
  destruct (rbind _ _) as [tables|e]; [|by exists []].
  unfold bind.
  destruct (for_each_describe_frame self tables
              (set_trace (trace s ++ [EvExecute (text all_tables_sql)]) s))
    as (evs & [Htr _ _ _ _]).
  exists evs.
  destruct (for_each tables (describe_table self) _) as [[[]|e] s1];
    simpl in *; rewrite Htr; by rewrite <- app_assoc.
Qed.

(** X8: building a [TableDescriber] without an engine raises [ValueError]
    before the folder is touched. When the construction succeeds, the
    describer holds a connection, its lists are empty, the folder exists and
    holds exactly the entries it had (none if it was missing), and the first
    thing [get_descriptions] does is execute the table listing. *)
Theorem describer_construction
    (engine : option Engine) (program : list Row → gset string → result TableInfo)
    (dir : string) (node : DirNode) (disk : string → WriteOutcome) :
  TableDescriber__init__ None program dir node disk
  = (Raise (ValueError "Engine is not initialized."), node)
  ∧ ∀ self s node',
      TableDescriber__init__ engine program dir node disk = (Ok (self, s), node') →
      (∃ c, conn self = Some c)
      ∧ table_infos s = [] ∧ loaded_tables s = ∅ ∧ loaded_have_files s
      ∧ node' = Directory (files s)
      ∧ files s = dir_entries node
      ∧ node ≠ NotADirectory
      ∧ ∃ evs, trace (get_descriptions self s).2
               = EvExecute (text all_tables_sql) :: evs.
Proof.
  split; [reflexivity|].
  intros self s node'. unfold TableDescriber__init__.
  destruct (get_db_connection engine) as [c|]; [|done].
  destruct node as [| |entries]; simpl; [|done|]; intros [= <- <- <-]; simpl.
  all: repeat split; try done; eauto.
  all: try (intros t Ht; by apply elem_of_empty in Ht).
  all: match goal with
       | |- ∃ evs, trace (get_descriptions ?self ?s).2 = _ =>
           destruct (get_descriptions_lists_first self c s eq_refl) as [evs Hevs];
           exists evs; exact Hevs
       end.
Qed.

Lemma describer_construction_witness :
  ∃ self s,
    TableDescriber__init__ (Some {| connect := Ok (small_db ["users"] seven_rows) |})
      summarize "table_info" Missing (λ _, Written)
    = (Ok (self, s), Directory ∅)
    ∧ files s = ∅ ∧ loaded_have_files s.
Proof.
  eexists _, _. split; [reflexivity|].
  destruct (describer_construction
              (Some {| connect := Ok (small_db ["users"] seven_rows) |})
              summarize "table_info" Missing (λ _, Written)) as [_ H].
  destruct (H _ _ _ eq_refl) as (_ & _ & _ & Hinv & _ & Hf & _).
  split; [exact Hf | exact Hinv].
Defined.

(** ** The steps of [_process_parsing] *)

(** X9: [_parse_table_info] never raises. It calls the completion program
    once, with the rows and the loaded tables, and changes nothing else; it
    returns [None] exactly when the program raised, and otherwise the
    program's [TableInfo] with its name replaced by the table's name. *)
Theorem parse_table_info_never_raises
    (self : TableDescriber) (rows : list Row) (t : string) (s : State) :
  ∃ r,
    _parse_table_info self rows t s
    = (Ok r, set_trace (trace s ++ [EvProgram rows (loaded_tables s)]) s)
    ∧ (r = None ↔ ∃ e, program self rows (loaded_tables s) = Raise e)
    ∧ (∀ d, r = Some d →
            table_name d = t
            ∧ ∃ d0, program self rows (loaded_tables s) = Ok d0
                    ∧ table_summary d = table_summary d0).
Proof.
  unfold _parse_table_info, try_except, bind, call_program, ret.
  destruct (program self rows (loaded_tables s)) as [d0|e] eqn:E.
  - exists (Some (with_table_name d0 t)). split; [done|]. split.
    + split; [done | by intros [e He]].
    + intros d [= <-]. split; [done|]. by exists d0.
  - exists None. split; [done|]. split; [|done].
    split; [by exists e | done].
Qed.

(** X10: [_add_table_name] answers whether the name was new and leaves it
    loaded; names already loaded stay loaded, nothing else changes, and a
    second call with the same [TableInfo] answers [False] and changes
    nothing. *)
Theorem add_table_name_once (d : TableInfo) (s : State) :
  ∃ new s1,
    _add_table_name (Some d) s = (Ok new, s1)
    ∧ (new = true ↔ table_name d ∉ loaded_tables s)
    ∧ loaded_tables s1 = {[table_name d]} ∪ loaded_tables s
    ∧ files s1 = files s ∧ table_infos s1 = table_infos s ∧ trace s1 = trace s
    ∧ _add_table_name (Some d) s1 = (Ok false, s1).
Proof.
  unfold _add_table_name.
  destruct (decide (table_name d ∈ loaded_tables s)) as [Hin|Hout].
  - exists false, s. split_and!; try done.
    + symmetry. apply (subseteq_union_1_L (C := gset string)).
      by apply singleton_subseteq_l.
    + by destruct (decide _).
  - eexists true, _. split_and!; try done. simpl.
    destruct (decide _) as [|Hn]; [done|]. destruct Hn.
    apply elem_of_union_l. by apply elem_of_singleton.
Qed.

(** ** A write that fails *)

(** X11: a write that fails is not tried again. When the lookup for a plain
    table name finds nothing and the file of the table cannot be opened for
    writing, the round raises after the table has been added to the loaded
    tables: the table is then loaded without a cache file. The next round of
    the same describer for that table queries the rows and calls the program
    again, appends the schema generated, and makes no attempt to write. *)
Theorem failed_write_is_not_retried (self : TableDescriber) (c : Connection)
    (t : string) (rows : list Row) (d : TableInfo) (s : State) :
  plain_name t = true →
  glob_matches (files s) t = ∅ →
  conn self = Some c →
  execute_fetchall c (text ("SELECT * FROM " +:+ t +:+ " LIMIT 5;")) = Ok rows →
  program self rows (loaded_tables s) = Ok d →
  t ∉ loaded_tables s →
  disk self (out_file self t) = OpenFails →
  let s1 := (describe_table self t s).2 in
  (∃ e, (describe_table self t s).1 = Raise e)
  ∧ trace s1 = trace s ++ [EvGlob (t +:+ "*") [];
                           EvExecute (text ("SELECT * FROM " +:+ t +:+ " LIMIT 5;"));
                           EvProgram rows (loaded_tables s);
                           EvWrite (out_file self t)]
  ∧ loaded_tables s1 = {[t]} ∪ loaded_tables s
  ∧ files s1 = files s
  ∧ table_infos s1 = table_infos s
  ∧ ¬ loaded_have_files s1
  ∧ ∀ d', program self rows (loaded_tables s1) = Ok d' →
          (describe_table self t s1).1 = Ok tt
          ∧ trace (describe_table self t s1).2
            = trace s1 ++ [EvGlob (t +:+ "*") [];
                           EvExecute (text ("SELECT * FROM " +:+ t +:+ " LIMIT 5;"));
                           EvProgram rows (loaded_tables s1)]
          ∧ files (describe_table self t s1).2 = files s
          ∧ table_infos (describe_table self t s1).2
            = table_infos s ++ [schema_of (with_table_name d' t)].
Proof.
  intros Hp E Hc Hrows Hprog Hnew Hdisk.
  assert (describe_table self t s
          = (Raise (ExternalError "open failed"),
             {| table_infos := table_infos s;
                loaded_tables := {[t]} ∪ loaded_tables s;
                files := files s;
                trace := trace s ++ [EvGlob (t +:+ "*") [];
                           EvExecute (text ("SELECT * FROM " +:+ t +:+ " LIMIT 5;"));
                           EvProgram rows (loaded_tables s);
                           EvWrite (out_file self t)] |})) as R1.
  { unfold describe_table. unfold bind at 1.
    rewrite (lookup_miss self t s Hp E).
    unfold _process_parsing, _parse_table_info, _add_table_name,
      _save_table_info_file, get_table_rows, call_program, dump_json,
      append_table_info, execute, emit, lift, try_except, bind, ret, raise,
      set_trace, set_files, set_loaded_tables, set_table_infos.
    rewrite Hc. simpl. rewrite Hrows. simpl. rewrite Hprog. simpl.
    destruct (decide (t ∈ loaded_tables s)) as [Hin|_]; [done|]. simpl.
    unfold out_file in Hdisk. rewrite Hdisk.
    unfold out_file. by norm_trace. }
  rewrite R1. cbv zeta. simpl.
  split_and!; try done.
  - by eexists.
  - intros Hinv.
    destruct (Hinv t) as [x Hx]; simpl.
    + apply elem_of_union_l. by apply elem_of_singleton.
    + simpl in Hx. by rewrite (glob_matches_absent _ _ E) in Hx.
  - intros d' Hprog'.
    set (s1 := {| table_infos := table_infos s;
                  loaded_tables := {[t]} ∪ loaded_tables s;
                  files := files s;
                  trace := trace s ++ [EvGlob (t +:+ "*") [];
                           EvExecute (text ("SELECT * FROM " +:+ t +:+ " LIMIT 5;"));
                           EvProgram rows (loaded_tables s);
                           EvWrite (out_file self t)] |}) in *.
    assert (describe_table self t s1
            = (Ok tt,
               {| table_infos := table_infos s ++ [schema_of (with_table_name d' t)];
                  loaded_tables := loaded_tables s1;
                  files := files s;
                  trace := trace s1 ++ [EvGlob (t +:+ "*") [];
                           EvExecute (text ("SELECT * FROM " +:+ t +:+ " LIMIT 5;"));
                           EvProgram rows (loaded_tables s1)] |})) as R2.
    { unfold describe_table. unfold bind at 1.
      rewrite (lookup_miss self t s1 Hp E).
      unfold _process_parsing, _parse_table_info, _add_table_name,
        _save_table_info_file, get_table_rows, call_program, dump_json,
        append_table_info, execute, emit, lift, try_except, bind, ret, raise,
        set_trace, set_files, set_loaded_tables, set_table_infos.
      rewrite Hc. simpl. rewrite Hrows. simpl. rewrite Hprog'. simpl.
      destruct (decide (t ∈ {[t]} ∪ loaded_tables s)) as [_|Hout].
      - simpl. unfold schema_of. by norm_trace.
      - destruct Hout. apply elem_of_union_l. by apply elem_of_singleton. }
    by rewrite R2.
Qed.

Lemma failed_write_is_not_retried_witness :
  let self := read_only_describer summarize ["orders"] in
  let s1 := (describe_table self "orders" (fresh only_users_cached)).2 in
  loaded_tables s1 = {["orders"]} ∪ ∅
  ∧ files s1 = only_users_cached
  ∧ ¬ loaded_have_files s1.
Proof.
  destruct (failed_write_is_not_retried
              (read_only_describer summarize ["orders"])
              (small_db ["orders"] seven_rows) "orders" (take 5 seven_rows)
              {| table_name := "guess"; table_summary := "generated summary" |}
              (fresh only_users_cached))
    as (_ & _ & Hl & Hf & _ & Hn & _).
  - reflexivity.
  - apply glob_matches_empty. intros f Hf.
    destruct (String.prefix "orders" f) eqn:P; [|done].
    assert (f = entry "orders") as ->
      by (by apply (lookup_candidates (files (fresh only_users_cached))
                      ["users.json"])).
    destruct Hf as [x Hx]. by vm_compute in Hx.
  - reflexivity.
  - reflexivity.
  - reflexivity.
  - simpl. apply not_elem_of_empty.
  - reflexivity.
  - split_and!; [exact Hl | exact Hf | exact Hn].
Defined.

(** ** Invariants of the loop of [get_descriptions] *)

(** One round appends one schema exactly when it completes. *)
Lemma describe_table_appends (self : TableDescriber) (t : string) (s : State) :
  (∃ sc, (describe_table self t s).1 = Ok tt
         ∧ table_infos (describe_table self t s).2 = table_infos s ++ [sc])
  ∨ (∃ e, (describe_table self t s).1 = Raise e
          ∧ table_infos (describe_table self t s).2 = table_infos s).
Proof.
  unfold_describer. simpl.
  destruct (glob_select (files s) t) as [sel|]; simpl; [|right; by eexists].
  destruct (map_to_list sel) as [|[f1 x1] [|[f2 x2] l]] eqn:E; simpl.
  - repeat (case_match; simpl in *; simplify_eq).
    all: first [left; by eexists | right; by eexists].
  - repeat (case_match; simpl in *; simplify_eq).
    all: first [left; by eexists | right; by eexists].
  - right; by eexists.
Qed.

(** A round that completes, or that runs on a file system accepting every
    write, either leaves the loaded tables and the directory as they were or
    loads the table and writes the table's file. *)
Lemma describe_table_loads_and_saves (self : TableDescriber) (t : string) (s : State) :
  (∀ p, disk self p = Written) ∨ (describe_table self t s).1 = Ok tt →
  (loaded_tables (describe_table self t s).2 = loaded_tables s
   ∧ files (describe_table self t s).2 = files s)
  ∨ (∃ d, loaded_tables (describe_table self t s).2 = {[t]} ∪ loaded_tables s
          ∧ files (describe_table self t s).2 = <[entry t := JsonOf d]> (files s)).
Proof.
  unfold_describer. simpl.
  destruct (glob_select (files s) t) as [sel|]; simpl; [|by left].
  destruct (map_to_list sel) as [|[f1 x1] [|[f2 x2] l]] eqn:E; simpl.
  - repeat (case_match; simpl in *; simplify_eq).
    all: intros Hok.
    all: try (left; by split).
    all: try (right; by eexists).
    all: destruct Hok as [Hok|Hok]; [|done].
    all: match goal with H : disk _ ?p = _ |- _ => by rewrite Hok in H end.
  - repeat (case_match; simpl in *; simplify_eq).
    all: intros _; by left.
  - by left.
Qed.

Lemma describe_table_keeps_loaded_files (self : TableDescriber) (t : string) (s : State) :
  (∀ p, disk self p = Written) ∨ (describe_table self t s).1 = Ok tt →
  loaded_have_files s → loaded_have_files (describe_table self t s).2.
Proof.
  intros Hok Hinv.
  destruct (describe_table_loads_and_saves self t s Hok) as [[Hl Hf] | (d & Hl & Hf)];
    intros t' Ht'; rewrite Hl in Ht'; rewrite Hf.
  - by apply Hinv.
  - destruct (decide (entry t = entry t')) as [->|Hne].
    + rewrite lookup_insert_eq. by eexists.
    + rewrite lookup_insert_ne by done. apply Hinv.
      apply elem_of_union in Ht' as [Ht'|Ht']; [|done].
      apply elem_of_singleton in Ht' as ->. done.
Qed.

Lemma for_each_keeps_loaded_files (self : TableDescriber) (tables : list string)
    (s : State) :
  (∀ p, disk self p = Written)
  ∨ (for_each tables (describe_table self) s).1 = Ok tt →
  loaded_have_files s →
  loaded_have_files (for_each tables (describe_table self) s).2.
Proof.
  revert s. induction tables as [|t tables IH]; intros s Hok Hinv; [done|].
  simpl in *. unfold bind in Hok at 1. unfold bind at 1.
  assert ((∀ p, disk self p = Written) ∨ (describe_table self t s).1 = Ok tt) as Hok1.
  { destruct Hok as [Hok|Hok]; [by left | right].
    by destruct (describe_table self t s) as [[[]|e] s1]. }
  pose proof (describe_table_keeps_loaded_files self t s Hok1 Hinv) as H1.
  destruct (describe_table self t s) as [[[]|e] s1]; [by apply IH | done].
Qed.

(** X12: [get_descriptions] keeps the invariant that every loaded table has
    its cache file, whenever it returns, and also when it raises on a file
    system that accepts every write. *)
Theorem get_descriptions_keeps_loaded_files (self : TableDescriber) (s : State) :
  loaded_have_files s →
  (∀ p, disk self p = Written) ∨ (∃ schemas, (get_descriptions self s).1 = Ok schemas) →
  loaded_have_files (get_descriptions self s).2.
Proof.
  intros Hinv Hok. rewrite get_descriptions_unfold in Hok |- *.
  assert (loaded_have_files (get_all_tables (conn self) s).2) as H0.
  { destruct (conn self) as [c|]; [by rewrite get_all_tables_run | done]. }
  destruct (get_all_tables (conn self) s) as [[tables|e] s0]; [|done].
  assert ((∀ p, disk self p = Written)
          ∨ (for_each tables (describe_table self) s0).1 = Ok tt) as Hok1.
  { destruct Hok as [Hok|[schemas Hok]]; [by left | right].
    by destruct (for_each tables (describe_table self) s0) as [[[]|e] s1]. }
  pose proof (for_each_keeps_loaded_files self tables s0 Hok1 H0) as H1.
  by destruct (for_each tables (describe_table self) s0) as [[[]|e] s1].
Qed.

Lemma get_descriptions_keeps_loaded_files_witness :
  loaded_have_files
    (get_descriptions (describer summarize ["users"; "orders"])
       (fresh only_users_cached)).2.
Proof.
  apply (get_descriptions_keeps_loaded_files
           (describer summarize ["users"; "orders"]) (fresh only_users_cached)).
  - apply fresh_loaded_have_files.
  - by left.
Defined.

Lemma for_each_appends (self : TableDescriber) (tables : list string) (s : State) :
  ∃ new,
    table_infos (for_each tables (describe_table self) s).2 = table_infos s ++ new
    ∧ ((for_each tables (describe_table self) s).1 = Ok tt →
       length new = length tables).
Proof.
  revert s. induction tables as [|t tables IH]; intros s.
  - exists []. by rewrite app_nil_r.
  - simpl. unfold bind at 1 2.
    destruct (describe_table_appends self t s) as [(sc & Hr & Hti) | (e & Hr & Hti)].
    + destruct (describe_table self t s) as [[[]|e] s1]; [|done]. simpl in *.
      destruct (IH s1) as (new & Hnew & Hlen).
      exists (sc :: new). rewrite Hnew, Hti, <- app_assoc. split; [done|].
      intros Hok. simpl. by rewrite Hlen.
    + destruct (describe_table self t s) as [[[]|e'] s1]; [done|]. simpl in *.
      exists []. by rewrite app_nil_r.
Qed.

(** X13: the list returned by [get_descriptions] is the list the describer
    held before, followed by exactly one schema per table listed; the
    describer keeps what it held even when the run raises. *)
Theorem get_descriptions_appends_one_per_table (self : TableDescriber) (s : State) :
  (∃ new, table_infos (get_descriptions self s).2 = table_infos s ++ new)
  ∧ ∀ tables schemas,
      (get_all_tables (conn self) s).1 = Ok tables →
      (get_descriptions self s).1 = Ok schemas →
      ∃ new, schemas = table_infos s ++ new ∧ length new = length tables.
Proof.
  rewrite get_descriptions_unfold.
  assert (table_infos (get_all_tables (conn self) s).2 = table_infos s) as H0.
  { destruct (conn self) as [c|]; [by rewrite get_all_tables_run | done]. }
  destruct (get_all_tables (conn self) s) as [[tables|e] s0]; simpl in *.
  - destruct (for_each_appends self tables s0) as (new & Hnew & Hlen).
    rewrite H0 in Hnew.
    destruct (for_each tables (describe_table self) s0) as [[[]|e] s1]; simpl in *.
    + split; [by exists new|]. intros tables' schemas Ht Hs.
      simplify_eq. exists new. split; [done | by apply Hlen].
    + split; [by exists new | done].
  - split; [exists []; by rewrite app_nil_r | done].
Qed.

(** ** Runs over table names that do not collide *)

Lemma for_each_prefix_free (self : TableDescriber) (c : Connection)
    (tables todo : list string) (s : State) :
  conn self = Some c →
  plain_names tables →
  (∀ t, t ∈ tables → disk self (out_file self t) = Written) →
  prefix_free tables →
  (∀ t, t ∈ tables →
        ∃ rows, execute_fetchall c (text ("SELECT * FROM " +:+ t +:+ " LIMIT 5;"))
                = Ok rows) →
  (∀ rows excl, ∃ d, program self rows excl = Ok d) →
  (∀ t, t ∈ todo → t ∈ tables) →
  files_of_tables tables (files s) → loaded_have_files s →
  ∃ s' new,
    for_each todo (describe_table self) s = (Ok tt, s')
    ∧ table_infos s' = table_infos s ++ new
    ∧ schema_table_name <$> new = todo
    ∧ files_of_tables tables (files s')
    ∧ (∀ f x, files s !! f = Some x → files s' !! f = Some x).
Proof.
  intros Hc Hplain Hdisk Hfree Hrows Hprog. revert s.
  induction todo as [|t todo IH]; intros s Htodo Hfiles Hinv.
  - exists s, []. by rewrite app_nil_r.
  - assert (t ∈ tables) as Ht by (apply Htodo; by left).
    assert (plain_name t = true) as Hp
      by (by apply (proj1 (Forall_forall _ _) Hplain)).
    assert (∀ f, is_Some (files s !! f) → String.prefix t f = true → f = entry t)
      as Honly.
    { intros f [x Hx] P. destruct (Hfiles f x Hx) as (t' & d & Ht' & -> & _ & _).
      by rewrite (Hfree t t' Ht Ht' P). }
    simpl. unfold bind at 1.
    destruct (files s !! entry t) as [x|] eqn:Hown.
    + destruct (Hfiles _ _ Hown) as (t' & d & _ & Ht' & -> & Hname).
      apply entry_inj in Ht' as <-.
      rewrite (describe_table_hit self t (entry t) d s Hp);
        [|by apply glob_matches_singleton; [done | apply prefix_entry | done]].
      match goal with
      | |- context [for_each todo _ ?s1] =>
          destruct (IH s1) as (s' & new & Hrun & Hti & Hnames & Hfiles' & Hkeep);
          [by intros; apply Htodo; right | exact Hfiles | exact Hinv |]
      end.
      exists s', (schema_of d :: new). split_and!; try done.
      * rewrite Hti. simpl. by rewrite <- app_assoc.
      * rewrite fmap_cons, Hnames. simpl. by rewrite Hname.
    + assert (glob_matches (files s) t = ∅) as Hmiss.
      { apply glob_matches_empty. intros f Hf.
        destruct (String.prefix t f) eqn:P; [|done].
        rewrite (Honly f Hf P), Hown in Hf. by destruct Hf. }
      destruct (Hrows t Ht) as [rows Hr].
      destruct (Hprog rows (loaded_tables s)) as [d Hd].
      rewrite (describe_table_miss self c t rows d s Hp Hmiss Hc Hr Hd
                 (absent_not_loaded s t Hinv Hmiss) (Hdisk t Ht)).
      match goal with
      | |- context [for_each todo _ ?s1] =>
          destruct (IH s1) as (s' & new & Hrun & Hti & Hnames & Hfiles' & Hkeep)
      end.
      * intros; apply Htodo; by right.
      * simpl. intros f x Hx. destruct (decide (f = entry t)) as [->|Hne].
        -- rewrite lookup_insert_eq in Hx. injection Hx as <-.
           by exists t, (with_table_name d t).
        -- rewrite lookup_insert_ne in Hx by done. by apply Hfiles.
      * simpl. intros t' Ht'. simpl.
        destruct (decide (entry t = entry t')) as [->|Hne].
        -- rewrite lookup_insert_eq. by eexists.
        -- rewrite lookup_insert_ne by done. apply Hinv.
           apply elem_of_union in Ht' as [Ht'|Ht']; [|done].
           apply elem_of_singleton in Ht' as ->. done.
      * exists s', (schema_of (with_table_name d t) :: new). split_and!; try done.
        -- rewrite Hti. simpl. by rewrite <- app_assoc.
        -- by rewrite fmap_cons, Hnames.
        -- intros f x Hx. apply Hkeep. simpl.
           rewrite lookup_insert_ne; [done|]. intros <-. congruence.
Qed.

(** X14: when the listed table names are plain, none of them is the
    beginning of another listed table's file name, the cache holds only files
    of listed tables under their own names, the file system accepts the
    writes to the tables' files, and the row query and the completion program
    succeed, [get_descriptions] returns, and the schemas it appends bear the
    names of the tables, one per table in the order listed. *)
Theorem get_descriptions_names_tables (self : TableDescriber) (c : Connection)
    (tables : list string) (s : State) :
  conn self = Some c →
  (get_all_tables (conn self) s).1 = Ok tables →
  plain_names tables →
  (∀ t, t ∈ tables → disk self (out_file self t) = Written) →
  prefix_free tables →
  (∀ t, t ∈ tables →
        ∃ rows, execute_fetchall c (text ("SELECT * FROM " +:+ t +:+ " LIMIT 5;"))
                = Ok rows) →
  (∀ rows excl, ∃ d, program self rows excl = Ok d) →
  files_of_tables tables (files s) → loaded_have_files s →
  ∃ new,
    (get_descriptions self s).1 = Ok (table_infos s ++ new)
    ∧ schema_table_name <$> new = tables.
Proof.
  intros Hc Htables Hplain Hdisk Hfree Hrows Hprog Hfiles Hinv.
  rewrite get_descriptions_unfold.
  rewrite Hc, get_all_tables_run in Htables. simpl in Htables.
  rewrite Hc, get_all_tables_run, Htables.
  destruct (for_each_prefix_free self c tables tables
              (set_trace (trace s ++ [EvExecute (text all_tables_sql)]) s))
    as (s' & new & Hrun & Hti & Hnames & _); try done.
  exists new. rewrite Hrun. simpl. by rewrite Hti.
Qed.

Lemma get_descriptions_names_tables_witness :
  ∃ new,
    (get_descriptions (describer summarize ["users"; "orders"; "users"]) (fresh ∅)).1
    = Ok new
    ∧ schema_table_name <$> new = ["users"; "orders"; "users"].
Proof.
  destruct (get_descriptions_names_tables
              (describer summarize ["users"; "orders"; "users"])
              (small_db ["users"; "orders"; "users"] seven_rows)
              ["users"; "orders"; "users"] (fresh ∅)) as (new & Hres & Hnames).
  - reflexivity.
  - reflexivity.
  - repeat constructor.
  - reflexivity.
  - intros t1 t2 H1 H2.
    apply list_elem_of_In in H1, H2. simpl in H1, H2.
    destruct H1 as [<-|[<-|[<-|[]]]]; destruct H2 as [<-|[<-|[<-|[]]]];
      by vm_compute.
  - intros t _. eexists. reflexivity.
  - intros rows excl. eexists. reflexivity.
  - intros f x Hx. simpl in Hx. by rewrite lookup_empty in Hx.
  - apply fresh_loaded_have_files.
  - exists new. by split.
Defined.

(** ** Runs over colliding cache files *)





(** ** Generate once, then read *)



(** ** The context builder over longer lists *)

Lemma get_contexts_loop_acc (self : TableContextCreator)
    (schemas : list SQLTableSchema) (acc : list string) :
  get_contexts_loop self schemas acc
  = rbind (get_contexts_loop self schemas []) (λ ds, Ok (acc ++ ds)).
Proof.
  revert acc. induction schemas as [|table schemas IH]; intros acc.
  - simpl. by rewrite app_nil_r.
  - simpl. destruct (get_info self (schema_table_name table)) as [info|e]; [|done].
    simpl. rewrite (IH (acc ++ _)), (IH [_]).
    destruct (get_contexts_loop self schemas []) as [ds|e]; [|done].
    simpl. by rewrite <- app_assoc.
Qed.

Lemma get_contexts_loop_app (self : TableContextCreator)
    (l1 l2 : list SQLTableSchema) (acc : list string) :
  get_contexts_loop self (l1 ++ l2) acc
  = rbind (get_contexts_loop self l1 acc) (get_contexts_loop self l2).
Proof.
  revert acc. induction l1 as [|table l1 IH]; intros acc; [done|].
  simpl. destruct (get_info self (schema_table_name table)) as [info|e]; [|done].
  simpl. apply IH.
Qed.

Lemma join_app (sep : string) (l1 l2 : list string) :
  l1 ≠ [] → l2 ≠ [] →
  PyStr.join sep (l1 ++ l2) = PyStr.join sep l1 +:+ sep +:+ PyStr.join sep l2.
Proof.
  unfold PyStr.join. intros H1 H2.
  induction l1 as [|x l1 IH]; [done|].
  destruct l1 as [|y l1].
  - simpl. by destruct l2.
  - change (String.concat sep ((x :: y :: l1) ++ l2))
      with (x +:+ sep +:+ String.concat sep ((y :: l1) ++ l2)).
    change (String.concat sep (x :: y :: l1))
      with (x +:+ sep +:+ String.concat sep (y :: l1)).
    rewrite IH by done. by rewrite <- !append_assoc.
Qed.

Lemma get_contexts_loop_length (self : TableContextCreator)
    (schemas : list SQLTableSchema) (ds : list string) :
  get_contexts_loop self schemas [] = Ok ds → length ds = length schemas.
Proof.
  revert ds. induction schemas as [|table schemas IH]; intros ds.
  - by intros [= <-].
  - simpl. destruct (get_info self (schema_table_name table)) as [info|e]; [|done].
    simpl. rewrite get_contexts_loop_acc.
    destruct (get_contexts_loop self schemas []) as [ds'|e]; [|done].
    simpl. intros [= <-]. simpl. by rewrite (IH ds').
Qed.

(** X17: the context of two non-empty lists of tables put one after the
    other is the context of the first, a blank line, and the context of the
    second. *)
Theorem get_contexts_app (self : TableContextCreator)
    (l1 l2 : list SQLTableSchema) (c1 c2 : string) :
  l1 ≠ [] → l2 ≠ [] →
  get_contexts self l1 = Ok c1 → get_contexts self l2 = Ok c2 →
  get_contexts self (l1 ++ l2) = Ok (c1 +:+ nl +:+ nl +:+ c2).
Proof.
  unfold get_contexts. intros H1 H2.
  rewrite get_contexts_loop_app.
  destruct (get_contexts_loop self l1 []) as [ds1|e] eqn:E1; [|done].
  simpl. rewrite (get_contexts_loop_acc self l2 ds1).
  destruct (get_contexts_loop self l2 []) as [ds2|e] eqn:E2; [|done].
  simpl. intros [= <-] [= <-].
  rewrite join_app.
  - done.
  - apply get_contexts_loop_length in E1. by destruct ds1, l1.
  - apply get_contexts_loop_length in E2. by destruct ds2, l2.
Qed.

Lemma get_contexts_app_witness :
  get_contexts catalog
    ([ {| schema_table_name := "users"; context_str := Some "people" |} ]
     ++ [ {| schema_table_name := "orders"; context_str := None |} ])
  = Ok ("Table 'users' has columns: id (INTEGER). The table description is: people"
        +:+ nl +:+ nl +:+ "Table 'orders' has columns: total (NUMERIC).").
Proof.
  apply (get_contexts_app catalog
           [ {| schema_table_name := "users"; context_str := Some "people" |} ]
           [ {| schema_table_name := "orders"; context_str := None |} ]);
    [done | done | reflexivity | reflexivity].
Defined.

(** X18: [get_contexts] raises the exception of the first table whose table
    info cannot be obtained, whatever follows it in the list. *)
Theorem get_contexts_first_failure (self : TableContextCreator)
    (before after : list SQLTableSchema) (table : SQLTableSchema) (e : exn) :
  Forall (λ tb, ∃ info, get_info self (schema_table_name tb) = Ok info) before →
  get_info self (schema_table_name table) = Raise e →
  get_contexts self (before ++ table :: after) = Raise e.
Proof.
  intros Hbefore Hfail. unfold get_contexts.
  rewrite get_contexts_loop_app.
  assert (∃ ds, get_contexts_loop self before [] = Ok ds) as [ds ->].
  { induction Hbefore as [|tb before [info Hinfo] _ [ds IH]]; [by exists []|].
    simpl. rewrite Hinfo. simpl. rewrite get_contexts_loop_acc, IH. by eexists. }
  simpl. by rewrite Hfail.
Qed.

Lemma get_contexts_first_failure_witness :
  get_contexts catalog
    ([ {| schema_table_name := "users"; context_str := None |} ]
     ++ {| schema_table_name := "items"; context_str := None |}
        :: [ {| schema_table_name := "orders"; context_str := None |} ])
  = Raise (ValueError "table 'items' does not exist").
Proof.
  apply (get_contexts_first_failure catalog
           [ {| schema_table_name := "users"; context_str := None |} ]
           [ {| schema_table_name := "orders"; context_str := None |} ]
           {| schema_table_name := "items"; context_str := None |}).
  - repeat constructor. by eexists.
  - reflexivity.
Defined.

(** ** Edges of the cache *)

(** X19: a table that is already loaded is not saved again. When its lookup
    finds nothing although the table is loaded, [_process_parsing] still
    queries the rows and calls the program, and returns the generated
    [TableInfo], but writes no file: the directory stays as it was. *)
Theorem process_parsing_skips_loaded_table (self : TableDescriber) (c : Connection)
    (t : string) (rows : list Row) (d : TableInfo) (s : State) :
  conn self = Some c →
  execute_fetchall c (text ("SELECT * FROM " +:+ t +:+ " LIMIT 5;")) = Ok rows →
  program self rows (loaded_tables s) = Ok d →
  t ∈ loaded_tables s →
  _process_parsing self t s
  = (Ok (Some (with_table_name d t)),
     set_trace (trace s ++ [EvExecute (text ("SELECT * FROM " +:+ t +:+ " LIMIT 5;"));
                            EvProgram rows (loaded_tables s)]) s).
Proof.
  intros Hc Hr Hd Hin.
  unfold _process_parsing, _parse_table_info, _add_table_name, _save_table_info_file,
    get_table_rows, call_program, execute, emit, lift, try_except, bind, ret,
    set_trace.
  rewrite Hc. simpl. rewrite Hr. simpl. rewrite Hd. simpl.
  destruct (decide (t ∈ loaded_tables s)) as [_|Hout]; [|done].
  simpl. by rewrite <- app_assoc.
Qed.

Lemma process_parsing_skips_loaded_table_witness :
  files (_process_parsing (describer summarize ["orders"]) "orders"
           (set_loaded_tables {["orders"]} (fresh ∅))).2 = ∅.
Proof.
  rewrite (process_parsing_skips_loaded_table (describer summarize ["orders"])
             (small_db ["orders"] seven_rows) "orders" (take 5 seven_rows)
             {| table_name := "guess"; table_summary := "generated summary" |});
    [reflexivity | reflexivity | reflexivity | reflexivity |].
  by vm_compute.
Defined.



Lemma init_db_engine_failure_is_prefixed_witness :
  init_db_engine (<["POSTGRES_USER" := "app"]> ∅) (λ _, Raise (ExternalError "unused"))
  = Raise (ValueError
      "error occurred while creating db engine: One or more POSTGRES environment variables are not set or are empty.").
Proof.
  apply (init_db_engine_failure_is_prefixed (<["POSTGRES_USER" := "app"]> ∅)
           (λ _, Raise (ExternalError "unused"))).
  exists "POSTGRES_DB". split; [in_vars | by left].
Defined.

Lemma get_descriptions_appends_one_per_table_witness :
  ∃ new,
    (get_descriptions (describer summarize ["users"; "orders"])
       (fresh only_users_cached)).1 = Ok new
    ∧ length new = 2%nat.
Proof.
  destruct (get_descriptions_appends_one_per_table
              (describer summarize ["users"; "orders"]) (fresh only_users_cached))
    as [_ H].
  destruct (H ["users"; "orders"]
              [schema_of users_info; schema_of generated_orders])
    as (new & Hnew & Hlen); [reflexivity | by vm_compute |].
  exists new. split; [|exact Hlen].
  simpl in Hnew. rewrite <- Hnew. by vm_compute.
Defined.
